(** * oneof: discriminator-tagged JSON encoding of Go interface values

    A shallow embedding of package [oneof] (marshal.go, custom_value_wrapper.go,
    error.go) together with the part of the host codec
    (github.com/go-json-experiment/json) that the package drives: the
    marshaler/unmarshaler hook dispatch, the struct-tag driven coding of the
    two built-in wrapper structs, and the token encoder used by
    [customKeyWrappedType.MarshalJSONV2]. *)

From stdpp Require Import base option list gmap strings sorting.
From Stdlib Require Import String Ascii DecimalString.

Open Scope string_scope.

#[local] Set Warnings "-register-all".

(** ** JSON values and [jsontext.Value] *)

(** A JSON value as the host codec sees it.  Object members are kept as an
    association list: the wire form has an order and may repeat a name.
    Numbers are kept as their literal text. *)
Inductive json : Type :=
| JNull
| JBool (b : bool)
| JNum (lit : string)
| JStr (s : string)
| JArr (elems : list json)
| JObj (members : list (string * json)).

(** [jsontext.Kind]: the first significant byte of a value. *)
Inductive Kind : Type :=
| KInvalid | KNull | KFalse | KTrue | KString | KNumber | KObject | KArray.

Definition kindOf (j : json) : Kind :=
  match j with
  | JNull => KNull
  | JBool true => KTrue
  | JBool false => KFalse
  | JNum _ => KNumber
  | JStr _ => KString
  | JArr _ => KArray
  | JObj _ => KObject
  end.

#[global] Instance Kind_eq_dec : EqDecision Kind.
Proof. solve_decision. Defined.

(** [jsontext.Value] is a byte slice holding one encoded value; [None] is the
    nil/empty slice, for which [len(v) == 0]. *)
Definition Value : Type := option json.

Definition ValueKind (v : Value) : Kind :=
  match v with
  | Some j => kindOf j
  | None => KInvalid
  end.

(** [len(v) > 0] *)
Definition nonEmpty (v : Value) : bool :=
  match v with Some _ => true | None => false end.

Definition names {A : Type} (ms : list (string * A)) : list string := ms.*1.

(** ** Errors *)

(** One constructor per error the package builds (error.go and the
    [fmt.Errorf] sites), plus the host codec's own failures. *)
Inductive error : Type :=
| ErrUnknownGoType (typ : string)
| ErrUnknownDiscriminatorValue (v : string)
| ErrFailedToMarshalT (e : error)            (* "failed to marshal t: %w" *)
| ErrFailedToDecodeWrapper (e : error)       (* "failed to decode to type wrapper: %w" *)
| ErrFailedToUnmarshalOption (e : error)     (* "failed to marshal value to option type %T: %w" *)
| ErrEmptyDiscriminatorKey                   (* "custom discriminator key is empty" *)
| ErrBothInlineAndNested                     (* "found both inline and nested values" *)
| ErrExpectedObjectStart (k : Kind)          (* "expected object start, but encountered %v" *)
| ErrMissingDiscriminator (key : string)     (* "missing discriminator \"%s\"" *)
| ErrDiscriminatorNotString (key : string)   (* "value for discriminator key ... must be a string" *)
| ErrWriteToken (what : string) (e : error)  (* "failed to write ...: %w" *)
| ErrReencode (what : string) (e : error)    (* "failed to (re-)marshal/unmarshal ...: %w" *)
| HostKindMismatch (k : Kind) (goType : string) (* host: cannot unmarshal JSON kind into Go type *)
| HostDuplicateName                          (* host: duplicate object member name *)
| HostInvalidInline                          (* host: inlined raw value must be a JSON object *)
| HostEncoderState                           (* host: token not valid in the encoder's state *)
| HostPanic (msg : string)                   (* runtime panic *)
| HostOther (msg : string)                   (* any other failure of the host codec *)
| OutOfFuel.                                 (* the embedding's recursion bound was reached *)

Inductive res (A : Type) : Type :=
| Ok (a : A)
| Err (e : error).
Arguments Ok {A} a.
Arguments Err {A} e.

(** The categories of the specification's error taxonomy that name an error
    of the package.  [failed to ...: %w] wrappers keep the category of what
    they wrap; a host failure while reading the wrapper's own shape counts as
    a malformed wrapper. *)
Inductive Category : Type :=
| ConfigurationError | UnknownVariantType | UnknownDiscriminator
| MalformedWrapper | AmbiguousPayloadShape | UnderlyingCodecError.

Fixpoint category (e : error) : Category :=
  match e with
  | ErrUnknownGoType _ => UnknownVariantType
  | ErrUnknownDiscriminatorValue _ => UnknownDiscriminator
  | ErrFailedToMarshalT _ => UnderlyingCodecError
  | ErrFailedToDecodeWrapper e' => category e'
  | ErrFailedToUnmarshalOption _ => UnderlyingCodecError
  | ErrEmptyDiscriminatorKey => ConfigurationError
  | ErrBothInlineAndNested => AmbiguousPayloadShape
  | ErrExpectedObjectStart _ => MalformedWrapper
  | ErrMissingDiscriminator _ => MalformedWrapper
  | ErrDiscriminatorNotString _ => MalformedWrapper
  | HostKindMismatch _ _ => MalformedWrapper
  | _ => UnderlyingCodecError
  end.

(** ** Go values behind the interface type [T] *)

Definition loc : Type := nat.

(** [reflect.Type], as far as [discriminatorValueFor] and [%T] look at it. *)
Inductive rtype : Type :=
| Named (name : string)
| PtrTo (elem : rtype).

#[global] Instance rtype_eq_dec : EqDecision rtype.
Proof. solve_decision. Defined.

Fixpoint typeString (t : rtype) : string :=
  match t with
  | Named n => n
  | PtrTo e => "*" ++ typeString e
  end.

Definition isPtr (t : rtype) : bool :=
  match t with PtrTo _ => true | Named _ => false end.

Definition Elem (t : rtype) : rtype :=
  match t with PtrTo e => e | Named _ => t end.

(** A value of the interface type [T].  [data] is the universe of concrete
    (non-pointer) Go values of the caller's variant types.  [Addr d] is the
    pointer the host makes when it calls a hook registered for an interface
    on a non-pointer value: it copies the value into an addressable variable
    and hands the hook the address.  Nothing else holds that pointer, so it
    is carried together with what it points to. *)
Inductive T (data : Type) : Type :=
| Nil                                  (* the nil interface *)
| Plain (d : data)                     (* a non-pointer dynamic value *)
| Ref (elem : string) (l : loc)        (* a non-nil pointer *elem to heap cell l *)
| Raw (v : Value)                      (* a *jsontext.Value *)
| Addr (d : data).                     (* a pointer to the host's addressable copy of d *)
Arguments Nil {data}.
Arguments Plain {data} d.
Arguments Ref {data} elem l.
Arguments Raw {data} v.
Arguments Addr {data} d.

(** The result a marshal hook hands back to the host. *)
Inductive hookResult (A : Type) : Type :=
| SkipFunc                             (* json.SkipFunc: pass through *)
| Handled (a : A).                     (* nil error: the hook did the work *)
Arguments SkipFunc {A}.
Arguments Handled {A} a.

(** [json.Options], as far as the package reads it. *)
Record Options : Type := { Deterministic : option bool }.

(** [json.GetOption(opts, json.Deterministic)] *)
Definition GetDeterministic (o : Options) : bool * bool :=
  match Deterministic o with
  | Some b => (b, true)
  | None => (false, false)
  end.

(** Go leaves the iteration order of [range m] unspecified.  An oracle fixes
    one enumeration per map; theorems hold for every oracle. *)
Record RangeOracle : Type := {
  rangeOf : ∀ {V : Type}, gmap string V → list (string * V);
  rangeOf_perm : ∀ (V : Type) (m : gmap string V), rangeOf m ≡ₚ map_to_list m
}.

Definition insertionOrder : RangeOracle :=
  {| rangeOf := λ V m, map_to_list m;
     rangeOf_perm := λ V m, reflexivity (map_to_list m) |}.

(** ** State and error threading *)

(** Go code that threads a mutable object and returns [error]: a state and
    error monad.  The state survives a failure, as the mutated object does. *)
Definition St (S A : Type) : Type := S → res A * S.

Definition ret {S A : Type} (a : A) : St S A := λ s, (Ok a, s).

Definition fail {S A : Type} (e : error) : St S A := λ s, (Err e, s).

Definition bind {S A B : Type} (c : St S A) (k : A → St S B) : St S B :=
  λ s, match c s with
       | (Ok a, s') => k a s'
       | (Err e, s') => (Err e, s')
       end.

(** [if err != nil { return fmt.Errorf("...: %w", err) }] *)
Definition orWrap {S A : Type} (c : St S A) (wrap : error → error) : St S A :=
  λ s, match c s with
       | (Ok a, s') => (Ok a, s')
       | (Err e, s') => (Err (wrap e), s')
       end.

Definition lift {S A : Type} (r : res A) : St S A := λ s, (r, s).

Notation "'do' x ← c ; k" := (bind c (λ x, k))
  (at level 10, x name, c at level 100, k at level 200).
Notation "'run' c ; k" := (bind c (λ _, k))
  (at level 10, c at level 100, k at level 200).

(** ** The host's token encoder ([jsontext.Encoder]) *)

Inductive Token : Type :=
| ObjectStart
| ObjectEnd
| TString (s : string).             (* jsontext.String(s) *)

(** The encoder while it writes one top-level value: nothing written yet,
    inside an object (members completed so far, and a name still waiting for
    its value), or the value is complete. *)
Inductive Encoder : Type :=
| Idle
| InObject (ms : list (string * json)) (pending : option string)
| Finished (v : json).

(** Writing a member name that the object already has is refused (the host
    rejects duplicate names unless told otherwise). *)
Definition writeString (s : string) : St Encoder unit :=
  λ enc, match enc with
         | Idle => (Ok tt, Finished (JStr s))
         | InObject ms None =>
             if decide (s ∈ names ms) then (Err HostDuplicateName, enc)
             else (Ok tt, InObject ms (Some s))
         | InObject ms (Some k) => (Ok tt, InObject (ms ++ [(k, JStr s)]) None)
         | Finished _ => (Err HostEncoderState, enc)
         end.

Definition WriteToken (t : Token) : St Encoder unit :=
  match t with
  | TString s => writeString s
  | ObjectStart =>
      λ enc, match enc with
             | Idle => (Ok tt, InObject [] None)
             | _ => (Err HostEncoderState, enc)
             end
  | ObjectEnd =>
      λ enc, match enc with
             | InObject ms None => (Ok tt, Finished (JObj ms))
             | _ => (Err HostEncoderState, enc)
             end
  end.

Definition WriteValue (v : Value) : St Encoder unit :=
  match v with
  | None => fail HostEncoderState
  | Some j =>
      λ enc, match enc with
             | Idle => (Ok tt, Finished j)
             | InObject ms (Some k) => (Ok tt, InObject (ms ++ [(k, j)]) None)
             | InObject ms None =>
                 match j with
                 | JStr s => writeString s enc
                 | _ => (Err HostEncoderState, enc)
                 end
             | Finished _ => (Err HostEncoderState, enc)
             end
  end.

(** The value an encoder holds once a marshal call returned without error. *)
Definition written (r : res unit * Encoder) : res json :=
  match r with
  | (Ok _, Finished v) => Ok v
  | (Ok _, _) => Err HostEncoderState
  | (Err e, _) => Err e
  end.

(** [json.Unmarshal(v, &m)] for [m : map[string]jsontext.Value] and for
    [m : map[string]any]: an object becomes a map, a repeated name is an
    error, null leaves the map empty, anything else is a kind mismatch. *)
Definition decodeMap (j : json) : res (gmap string json) :=
  match j with
  | JObj ms =>
      if decide (NoDup (names ms)) then Ok (list_to_map ms) else Err HostDuplicateName
  | JNull => Ok ∅
  | _ => Err (HostKindMismatch (kindOf j) "map")
  end.

(** [sort.Strings] *)
Definition strLe (a b : string) : Prop := String.leb a b = true.

#[global] Instance strLe_dec : RelDecision strLe.
Proof. intros a b. unfold strLe. apply _. Defined.

Definition sortStrings (keys : list string) : list string := merge_sort strLe keys.

(** ** custom_value_wrapper.go *)

Definition defaultTypeDiscriminatorKey : string := "_type".
Definition defaultNestedValueKey : string := "_value".

Record CustomValueWrapper : Type := {
  DiscriminatorKey : string;
  NestedValueKey : string;
  InlineObjects : bool
}.

Record customKeyWrappedType : Type := {
  discriminatorKey : string;
  discriminatorValue : string;
  nestedValueKey : string;
  nestedValue : Value;
  inlineValue : Value
}.

(** [key := dflt; if s != "" { key = s }] *)
Definition keyOr (dflt s : string) : string :=
  if decide (s = "") then dflt else s.

Definition Empty (b : CustomValueWrapper) : customKeyWrappedType :=
  {| discriminatorKey := keyOr defaultTypeDiscriminatorKey (DiscriminatorKey b);
     discriminatorValue := "";
     nestedValueKey := keyOr defaultNestedValueKey (NestedValueKey b);
     nestedValue := None;
     inlineValue := None |}.

Definition Wrap (b : CustomValueWrapper) (typ : string) (v : Value) : customKeyWrappedType :=
  let discriminatorKey := keyOr defaultTypeDiscriminatorKey (DiscriminatorKey b) in
  let nestedValueKey := keyOr defaultNestedValueKey (NestedValueKey b) in
  if bool_decide (ValueKind v = KObject) && InlineObjects b then
    {| discriminatorKey := discriminatorKey; discriminatorValue := typ;
       nestedValueKey := nestedValueKey; nestedValue := None; inlineValue := v |}
  else
    {| discriminatorKey := discriminatorKey; discriminatorValue := typ;
       nestedValueKey := nestedValueKey; nestedValue := v; inlineValue := None |}.

Definition customKeyWrappedType_Type (w : customKeyWrappedType) : string :=
  discriminatorValue w.

Definition customKeyWrappedType_Value (w : customKeyWrappedType) : Value :=
  if nonEmpty (inlineValue w) then inlineValue w else nestedValue w.

(** The two loops that write [key, value] pairs. *)
Fixpoint writeInlineMembers (kvs : list (string * Value)) : St Encoder unit :=
  match kvs with
  | [] => ret tt
  | (k, v) :: rest =>
      run orWrap (WriteToken (TString k)) (ErrWriteToken "inline key token");
      run orWrap (WriteValue v) (ErrWriteToken "inline value");
      writeInlineMembers rest
  end.

Section CustomKey.
Variable oracle : RangeOracle.

Definition MarshalJSONV2 (w : customKeyWrappedType) (opts : Options) : St Encoder unit :=
  if decide (discriminatorKey w = "") then fail ErrEmptyDiscriminatorKey
  else
    run orWrap (WriteToken ObjectStart) (ErrWriteToken "object start token");
    run orWrap (WriteToken (TString (discriminatorKey w)))
               (ErrWriteToken "discriminator key token");
    run orWrap (WriteToken (TString (discriminatorValue w)))
               (ErrWriteToken "discriminator value token");
    run (if nonEmpty (inlineValue w) && nonEmpty (nestedValue w) then
           fail ErrBothInlineAndNested
         else if nonEmpty (inlineValue w) then
           do m ← orWrap (lift (decodeMap (default JNull (inlineValue w))))
                         (ErrReencode "unmarshal inline value to map[string]jsontext.Value");
           match GetDeterministic opts with
           | (true, true) =>
               let keys := sortStrings (rangeOf oracle m).*1 in
               writeInlineMembers ((λ k, (k, m !! k)) <$> keys)
           | _ =>
               writeInlineMembers ((λ kv, (kv.1, Some kv.2)) <$> rangeOf oracle m)
           end
         else if nonEmpty (nestedValue w) then
           run orWrap (WriteToken (TString (nestedValueKey w)))
                      (ErrWriteToken "nested value key token");
           orWrap (WriteValue (nestedValue w)) (ErrWriteToken "nested value")
         else ret tt);
    orWrap (WriteToken ObjectEnd) (ErrWriteToken "object end token").

(** [json.Marshal(mv, opts)] of a value that was decoded into [any], and
    the [json.Unmarshal] of the result into a [jsontext.Value]: the host
    re-renders the value (numbers went through float64, maps have no
    order).  Left abstract. *)
Variable marshalAny : Options → json → res json.

(** The receiver is a pointer; its fields are assigned only on the
    successful path, so the updated wrapper is the result. *)
Definition UnmarshalJSONV2 (w : customKeyWrappedType) (dec : json) (opts : Options)
  : res customKeyWrappedType :=
  if negb (bool_decide (kindOf dec = KObject)) then Err (ErrExpectedObjectStart (kindOf dec))
  else
    match decodeMap dec with
    | Err e => Err (ErrReencode "marshal to map[string]any" e)
    | Ok m =>
        match m !! discriminatorKey w with
        | None => Err (ErrMissingDiscriminator (discriminatorKey w))
        | Some (JStr dvs) =>
            let m := delete (discriminatorKey w) m in
            if decide (size m = 0) then Ok w
            else
              let reencode (mv : json) (isNested : bool) :=
                match marshalAny opts mv with
                | Err e => Err (ErrReencode "re-marshal value" e)
                | Ok v =>
                    if isNested then
                      Ok {| discriminatorKey := discriminatorKey w;
                            discriminatorValue := dvs;
                            nestedValueKey := nestedValueKey w;
                            nestedValue := Some v;
                            inlineValue := inlineValue w |}
                    else
                      Ok {| discriminatorKey := discriminatorKey w;
                            discriminatorValue := dvs;
                            nestedValueKey := nestedValueKey w;
                            nestedValue := nestedValue w;
                            inlineValue := Some v |}
                end in
              match m !! nestedValueKey w with
              | Some nv =>
                  let m := delete (nestedValueKey w) m in
                  if decide (0 < size m) then Err ErrBothInlineAndNested
                  else reencode nv true
              | None => reencode (JObj (map_to_list m)) false
              end
        | Some _ => Err (ErrDiscriminatorNotString (discriminatorKey w))
        end
    end.
End CustomKey.

(** ** marshal.go: the two built-in wrapper structs *)

Record alwaysNestWrappedValue : Type := {
  anTyp : string;               (* Typ         `json:"_type"` *)
  anNestedValue : Value         (* NestedValue `json:"_value,omitempty"` *)
}.

Record inlineObjectsWrappedValue : Type := {
  ioTyp : string;               (* Typ         `json:"_type"` *)
  ioNestedValue : Value;        (* NestedValue `json:"_value,omitempty"` *)
  ioInlineValue : Value         (* InlineValue `json:",inline"` *)
}.

(** [WrappedValue]: the implementations the package provides. *)
Inductive WrappedValue : Type :=
| AlwaysNest (w : alwaysNestWrappedValue)
| InlineObjectsW (w : inlineObjectsWrappedValue)
| CustomKey (w : customKeyWrappedType).

Definition WrapNested (typ : string) (v : Value) : WrappedValue :=
  AlwaysNest {| anTyp := typ; anNestedValue := v |}.

Definition WrapInline (typ : string) (v : Value) : WrappedValue :=
  if bool_decide (ValueKind v = KObject) then
    InlineObjectsW {| ioTyp := typ; ioNestedValue := None; ioInlineValue := v |}
  else
    InlineObjectsW {| ioTyp := typ; ioNestedValue := v; ioInlineValue := None |}.

(** [CustomValueWrapper.Wrap] used as a [WrapFunc]. *)
Definition WrapCustom (b : CustomValueWrapper) (typ : string) (v : Value) : WrappedValue :=
  CustomKey (Wrap b typ v).

Definition WrappedValue_Type (w : WrappedValue) : string :=
  match w with
  | AlwaysNest w => anTyp w
  | InlineObjectsW w => ioTyp w
  | CustomKey w => customKeyWrappedType_Type w
  end.

Definition WrappedValue_Value (w : WrappedValue) : Value :=
  match w with
  | AlwaysNest w => anNestedValue w
  | InlineObjectsW w =>
      if nonEmpty (ioNestedValue w) then ioNestedValue w else ioInlineValue w
  | CustomKey w => customKeyWrappedType_Value w
  end.

(** ** The world the hooks run in *)

(** Each of [MarshalFunc] and [UnmarshalFunc] captures one [skipNext] cell;
    the heap holds the cells that pointer-typed options and values point to. *)
Record World (data : Type) : Type := {
  marshalSkipNext : bool;
  unmarshalSkipNext : bool;
  heap : gmap loc data
}.
Arguments marshalSkipNext {data} _.
Arguments unmarshalSkipNext {data} _.
Arguments heap {data} _.
Arguments Build_World {data} _ _ _.

Definition M (data A : Type) : Type := St (World data) A.

(** What the package takes from its surroundings: the caller's variant
    types with the host's coding of them, the interface type [T], the
    [json.Options] of the call, and the iteration order of maps.  The coders
    receive the host entrypoint they use for the fields of a value, which is
    how a value nested in another value reaches the hooks again. *)
Record Host (data : Type) : Type := {
  typeName : data → string;
  encodeData : (T data → M data json) → data → M data json;
  decodeData : (json → T data → M data (T data)) → json → data → M data data;
  capturesRaw : bool;           (* [*jsontext.Value] satisfies [T] *)
  jsonopts : Options;
  marshalAny : Options → json → res json;
  oracle : RangeOracle
}.
Arguments typeName {data} _ _.
Arguments encodeData {data} _ _ _.
Arguments decodeData {data} _ _ _ _.
Arguments capturesRaw {data} _.
Arguments jsonopts {data} _.
Arguments marshalAny {data} _ _ _.
Arguments oracle {data} _.

Record Config (data : Type) : Type := {
  ReplaceMissingTypeFunc : option (T data → string);
  WrapFunc : option (string → Value → WrappedValue)
}.
Arguments ReplaceMissingTypeFunc {data} _.
Arguments WrapFunc {data} _.

(** The values the host entrypoints are called on: a value of the interface
    type, or a wrapper. *)
Inductive GoValue (data : Type) : Type :=
| OfT (t : T data)
| OfWrapped (w : WrappedValue).
Arguments OfT {data} t.
Arguments OfWrapped {data} w.

Section Pipeline.
Context {data : Type} (host : Host data).

Definition setMarshalSkipNext (b : bool) : M data unit :=
  λ w, (Ok tt, Build_World b (unmarshalSkipNext w) (heap w)).

Definition setUnmarshalSkipNext (b : bool) : M data unit :=
  λ w, (Ok tt, Build_World (marshalSkipNext w) b (heap w)).

Definition load (l : loc) : M data data :=
  λ w, match heap w !! l with
       | Some d => (Ok d, w)
       | None => (Err (HostPanic "invalid memory address"), w)
       end.

Definition store (l : loc) (d : data) : M data unit :=
  λ w, (Ok tt, Build_World (marshalSkipNext w) (unmarshalSkipNext w) (<[l := d]> (heap w))).

(** *** discriminatorValueFor *)

(** [reflect.TypeOf]; nil for the nil interface. *)
Definition TypeOf (t : T data) : option rtype :=
  match t with
  | Nil => None
  | Plain d => Some (Named (typeName host d))
  | Ref elem _ => Some (PtrTo (Named elem))
  | Raw _ => Some (PtrTo (Named "jsontext.Value"))
  | Addr d => Some (PtrTo (Named (typeName host d)))
  end.

(** [ty := reflect.TypeOf(t); if ty.Kind() == reflect.Ptr { ty = ty.Elem() }].
    Calling [Kind] on the nil type panics. *)
Definition strippedType (t : T data) : res rtype :=
  match TypeOf t with
  | None => Err (HostPanic "invalid memory address")
  | Some ty => Ok (if isPtr ty then Elem ty else ty)
  end.

(** The loop over [opts]: the key of the first entry whose type matches,
    [""] when the loop ends without a match. *)
Fixpoint firstMatch (typeT : rtype) (entries : list (string * T data)) : res string :=
  match entries with
  | [] => Ok ""
  | (k, ot) :: rest =>
      match strippedType ot with
      | Err e => Err e
      | Ok typeOT => if decide (typeOT = typeT) then Ok k else firstMatch typeT rest
      end
  end.

Definition discriminatorValueFor (t : T data) (opts : gmap string (T data)) : res (string * bool) :=
  match strippedType t with
  | Err e => Err e
  | Ok typeT =>
      match firstMatch typeT (rangeOf (oracle host) opts) with
      | Err e => Err e
      | Ok key => if decide (key = "") then Ok ("", false) else Ok (key, true)
      end
  end.

(** [fmt.Sprintf("%T", t)] *)
Definition fmtT (t : T data) : string :=
  match TypeOf t with
  | None => "<nil>"
  | Some ty => typeString ty
  end.
(** *** The host's coding of the wrapper structs, as their tags direct it *)

(** [omitempty]: the member is dropped when its value was encoded as null,
    an empty string, an empty object or an empty array. *)
Definition isEmptyJSON (j : json) : bool :=
  match j with
  | JNull | JStr "" | JObj [] | JArr [] => true
  | _ => false
  end.

(** The members for [Typ] and [NestedValue].  [Marshal] is the host
    entrypoint, through which the field of type [jsontext.Value] is encoded. *)
Definition taggedMembers (Marshal : T data → M data json) (typ : string) (nested : Value)
  : M data (list (string * json)) :=
  do j ← Marshal (Raw nested);
  ret (("_type", JStr typ) :: (if isEmptyJSON j then [] else [("_value", j)])).

Definition encodeWrapped (Marshal : T data → M data json) (w : WrappedValue) : M data json :=
  match w with
  | AlwaysNest w =>
      do ms ← taggedMembers Marshal (anTyp w) (anNestedValue w);
      ret (JObj ms)
  | InlineObjectsW w =>
      do ms ← taggedMembers Marshal (ioTyp w) (ioNestedValue w);
      match ioInlineValue w with
      | None => ret (JObj ms)
      | Some (JObj inlined) =>
          if decide (NoDup (names (ms ++ inlined))) then ret (JObj (ms ++ inlined))
          else fail HostDuplicateName
      | Some _ => fail HostInvalidInline
      end
  | CustomKey w => lift (written (MarshalJSONV2 (oracle host) w (jsonopts host) Idle))
  end.

(** A JSON value read into a Go [string]: null leaves the zero value. *)
Definition decodeString (j : json) : res string :=
  match j with
  | JStr s => Ok s
  | JNull => Ok ""
  | _ => Err (HostKindMismatch (kindOf j) "string")
  end.

(** Members are read in order; a name seen before is an error; a name that
    no field carries is skipped. *)
Fixpoint fillAlwaysNest (seen : list string) (ms : list (string * json))
    (w : alwaysNestWrappedValue) : res alwaysNestWrappedValue :=
  match ms with
  | [] => Ok w
  | (k, v) :: rest =>
      if decide (k ∈ seen) then Err HostDuplicateName
      else if decide (k = "_type") then
        match decodeString v with
        | Err e => Err e
        | Ok s => fillAlwaysNest (k :: seen) rest {| anTyp := s; anNestedValue := anNestedValue w |}
        end
      else if decide (k = "_value") then
        fillAlwaysNest (k :: seen) rest {| anTyp := anTyp w; anNestedValue := Some v |}
      else fillAlwaysNest (k :: seen) rest w
  end.

(** The [inline] field collects, as one object, the members that no other
    field carries. *)
Definition appendInline (inlined : Value) (k : string) (v : json) : Value :=
  match inlined with
  | Some (JObj ms) => Some (JObj (ms ++ [(k, v)]))
  | _ => Some (JObj [(k, v)])
  end.

Fixpoint fillInlineObjects (seen : list string) (ms : list (string * json))
    (w : inlineObjectsWrappedValue) : res inlineObjectsWrappedValue :=
  match ms with
  | [] => Ok w
  | (k, v) :: rest =>
      if decide (k ∈ seen) then Err HostDuplicateName
      else if decide (k = "_type") then
        match decodeString v with
        | Err e => Err e
        | Ok s =>
            fillInlineObjects (k :: seen) rest
              {| ioTyp := s; ioNestedValue := ioNestedValue w; ioInlineValue := ioInlineValue w |}
        end
      else if decide (k = "_value") then
        fillInlineObjects (k :: seen) rest
          {| ioTyp := ioTyp w; ioNestedValue := Some v; ioInlineValue := ioInlineValue w |}
      else
        fillInlineObjects (k :: seen) rest
          {| ioTyp := ioTyp w; ioNestedValue := ioNestedValue w;
             ioInlineValue := appendInline (ioInlineValue w) k v |}
  end.

(** [json.UnmarshalDecode(dec, &w, jsonopts)] for the interface variable [w]
    holding one of the package's wrappers.  The input null makes the
    interface nil ([None]); otherwise the host decodes into the wrapper that
    [w] holds: a struct takes an object, and [customKeyWrappedType] decodes
    itself. *)
Definition decodeWrapped (dec : json) (w : WrappedValue) : res (option WrappedValue) :=
  match dec with
  | JNull => Ok None
  | _ =>
      match w with
      | AlwaysNest w =>
          match dec with
          | JObj ms => match fillAlwaysNest [] ms w with
                       | Ok w' => Ok (Some (AlwaysNest w'))
                       | Err e => Err e
                       end
          | _ => Err (HostKindMismatch (kindOf dec) "oneof.alwaysNestWrappedValue")
          end
      | InlineObjectsW w =>
          match dec with
          | JObj ms => match fillInlineObjects [] ms w with
                       | Ok w' => Ok (Some (InlineObjectsW w'))
                       | Err e => Err e
                       end
          | _ => Err (HostKindMismatch (kindOf dec) "oneof.inlineObjectsWrappedValue")
          end
      | CustomKey w =>
          match UnmarshalJSONV2 (marshalAny host) w dec (jsonopts host) with
          | Ok w' => Ok (Some (CustomKey w'))
          | Err e => Err e
          end
      end
  end.

(** *** The host's own coding of a value of type [T] *)

(** What the host does with a value when no hook takes it. *)
Definition encodeDefault (Marshal : T data → M data json) (t : T data) : M data json :=
  match t with
  | Nil => ret JNull
  | Plain d => encodeData host Marshal d
  | Ref _ l => do d ← load l; encodeData host Marshal d
  | Raw v => ret (default JNull v)
  | Addr d => encodeData host Marshal d
  end.

(** Decoding into an interface that holds [target]: null makes it nil; a nil
    interface has no concrete type to decode into; a non-pointer value is
    decoded into a copy that is stored back; a pointer is followed, and the
    cell it points to is decoded into in place. *)
Definition decodeDefault (Unmarshal : json → T data → M data (T data))
    (j : json) (target : T data) : M data (T data) :=
  match j with
  | JNull => ret Nil
  | _ =>
      match target with
      | Nil => fail (HostOther "cannot derive concrete type for non-empty interface")
      | Plain d => do d' ← decodeData host Unmarshal j d; ret (Plain d')
      | Ref elem l =>
          do d ← load l;
          do d' ← decodeData host Unmarshal j d;
          run store l d';
          ret (Ref elem l)
      | Raw _ => ret (Raw (Some j))
      | Addr d => do d' ← decodeData host Unmarshal j d; ret (Addr d')
      end
  end.

(** *** MarshalFunc and UnmarshalFunc *)

Variable opts : gmap string (T data).
Variable cfg : option (Config data).

Definition wrapFunc : string → Value → WrappedValue :=
  match cfg with
  | Some c => match WrapFunc c with Some f => f | None => WrapNested end
  | None => WrapNested
  end.

Definition replaceMissingTypeFunc : option (T data → string) :=
  match cfg with
  | Some c => ReplaceMissingTypeFunc c
  | None => None
  end.

(** The discriminator value for [t]: the key of its option, or what
    [ReplaceMissingTypeFunc] makes of [t] when there is none. *)
Definition resolveDiscriminator (t : T data) : res string :=
  match discriminatorValueFor t opts with
  | Err e => Err e
  | Ok (discriminatorValue, true) => Ok discriminatorValue
  | Ok (_, false) =>
      match replaceMissingTypeFunc with
      | None => Err (ErrUnknownGoType (fmtT t))
      | Some f => Ok (f t)
      end
  end.

(** The closure [marshalFunc].  [Marshal] is [json.Marshal(_, jsonopts)] and
    [MarshalEncode] is [json.MarshalEncode(enc, _, jsonopts)]; [Handled j]
    says that [j] was written to [enc] and nil returned. *)
Definition marshalFunc (Marshal : T data → M data json)
    (MarshalEncode : WrappedValue → M data json) (t : T data) : M data (hookResult json) :=
  λ world,
    if marshalSkipNext world then
      (run setMarshalSkipNext false; ret SkipFunc) world
    else
      match t with
      | Raw _ => (Ok SkipFunc, world)
      | _ =>
          (do discriminatorValue ← lift (resolveDiscriminator t);
           run setMarshalSkipNext true;
           do b ← orWrap (Marshal t) ErrFailedToMarshalT;
           let jv : Value := Some b in
           let w := wrapFunc discriminatorValue jv in
           do j ← MarshalEncode w;
           ret (Handled j)) world
      end.

(** The closure [unmarshalFunc].  [ptr] is what [*ptr] holds on entry (the
    closure never reads it); [Unmarshal v opt] is
    [json.Unmarshal(v, &opt, jsonopts)] and gives the new [opt];
    [Handled opt] says that [*ptr = opt] was done and nil returned.  When
    the host has left the wrapper nil, [w.Type()] panics. *)
Definition unmarshalFunc (Unmarshal : json → T data → M data (T data)) (dec : json)
    (ptr : T data) : M data (hookResult (T data)) :=
  λ world,
    if unmarshalSkipNext world then
      (run setUnmarshalSkipNext false; ret SkipFunc) world
    else
      (do decoded ← orWrap (lift (decodeWrapped dec (wrapFunc "" None)))
                           ErrFailedToDecodeWrapper;
       match decoded with
       | None => fail (HostPanic "invalid memory address")
       | Some w =>
           match opts !! WrappedValue_Type w with
           | None => fail (ErrUnknownDiscriminatorValue (WrappedValue_Type w))
           | Some opt =>
               let v := WrappedValue_Value w in
               match v with
               | Some payload =>
                   run setUnmarshalSkipNext true;
                   do opt' ← orWrap (Unmarshal payload opt) ErrFailedToUnmarshalOption;
                   ret (Handled opt')
               | None => ret (Handled opt)
               end
           end
       end) world.

(** *** The host entrypoints, with the hooks registered *)

(** The marshal hook is registered for [T]: the host calls it for every
    non-nil value that satisfies [T]. *)
Definition marshalHookApplies (t : T data) : bool :=
  match t with
  | Nil => false
  | Raw _ => capturesRaw host
  | _ => true
  end.

(** What the host hands to a hook registered for an interface: a pointer to
    the value, so that the methods of the interface can be called on it.  A
    non-pointer value is copied into an addressable variable whose address
    is taken; a pointer goes as it is. *)
Definition castTo (t : T data) : T data :=
  match t with
  | Plain d => Addr d
  | _ => t
  end.

(** [json.Marshal] / [json.MarshalEncode] with [json.WithMarshalers(MarshalFunc(opts, cfg))].
    The bound counts nested entries into the host. *)
Fixpoint hostMarshal (fuel : nat) (v : GoValue data) : M data json :=
  match fuel with
  | 0 => fail OutOfFuel
  | S n =>
      let Marshal := λ t, hostMarshal n (OfT t) in
      let MarshalEncode := λ w, hostMarshal n (OfWrapped w) in
      match v with
      | OfT t =>
          do r ← (if marshalHookApplies t then marshalFunc Marshal MarshalEncode (castTo t)
                  else ret SkipFunc);
          match r with
          | SkipFunc => encodeDefault Marshal t
          | Handled j => ret j
          end
      | OfWrapped w => encodeWrapped Marshal w
      end
  end.

Definition Marshal (fuel : nat) (t : T data) : M data json := hostMarshal fuel (OfT t).

(** [json.Unmarshal(_, ptr, jsonopts)] for [ptr : *T], with
    [json.WithUnmarshalers(UnmarshalFunc(opts, cfg))]: the hook is registered
    for [*T] and is called for every destination of type [T]. *)
Fixpoint Unmarshal (fuel : nat) (j : json) (target : T data) : M data (T data) :=
  match fuel with
  | 0 => fail OutOfFuel
  | S n =>
      do r ← unmarshalFunc (Unmarshal n) j target;
      match r with
      | SkipFunc => decodeDefault (Unmarshal n) j target
      | Handled t' => ret t'
      end
  end.

End Pipeline.

(** The members of [m] in the order of [keys]. *)
Definition membersInOrder (m : gmap string json) (keys : list string)
  : list (string * json) :=
  (λ k, (k, default JNull (m !! k))) <$> keys.

(** ** Shapes of a registry *)

Section Registry.
Context {data : Type} (host : Host data).

(** No option of [opts] has the type [ty] (pointers stripped). *)
Definition noOptionOfType (opts : gmap string (T data)) (ty : rtype) : Prop :=
  ∀ k ot, opts !! k = Some ot → ∃ ty', strippedType host ot = Ok ty' ∧ ty' ≠ ty.

(** [d] is registered with an option of type [ty], and is the only tag
    that is. *)
Definition onlyOptionOfType (opts : gmap string (T data)) (d : string) (ty : rtype) : Prop :=
  (∃ proto, opts !! d = Some proto ∧ strippedType host proto = Ok ty)
  ∧ ∀ k ot, opts !! k = Some ot → k ≠ d → ∃ ty', strippedType host ot = Ok ty' ∧ ty' ≠ ty.

(** The world after the host has encoded a field of type [jsontext.Value]:
    when the hook is called for it, a guard that was set is gone. *)
Definition afterRawField (w : World data) : World data :=
  Build_World (marshalSkipNext w && negb (capturesRaw host)) (unmarshalSkipNext w) (heap w).

(** The wire forms of a tag [d] with payload [p]: nested under ["_value"]
    (dropped when [p] is empty), and with the members of an object merged
    in. *)
Definition nestedWire (d : string) (p : json) : json :=
  JObj (("_type", JStr d) :: (if isEmptyJSON p then [] else [("_value", p)])).

Definition inlineWire (d : string) (p : json) : json :=
  match p with
  | JObj ms => JObj (("_type", JStr d) :: ms)
  | _ => nestedWire d p
  end.

(** An object payload can be merged next to ["_type"]: its names are
    distinct and none is ["_type"] or ["_value"]. *)
Definition inlineSafe (p : json) : Prop :=
  match p with
  | JObj ms => NoDup (names ms) ∧ ("_type" ∉ names ms) ∧ ("_value" ∉ names ms)
  | _ => True
  end.

(** A configuration that selects [CustomValueWrapper.Wrap] as [WrapFunc]. *)
Definition customConfig (b : CustomValueWrapper) : option (Config data) :=
  Some {| ReplaceMissingTypeFunc := None; WrapFunc := Some (WrapCustom b) |}.

End Registry.

(** ** The variant types of the package's tests and examples *)


(** [LiteralStringer], [ExclamationPointsStringer] and [JoinStringer] of
    example_test.go, [crypto.Hash], and [url.URL] cut down to two of its
    fields. *)
Inductive tdata : Type :=
| LiteralStringer (s : string)
| ExclamationPointsStringer (n : nat)
| JoinStringer (A B : T tdata) (Separator : string)
| Hash (n : nat)
| URL (Scheme Host_ : string).

Definition tdataName (d : tdata) : string :=
  match d with
  | LiteralStringer _ => "oneof_test.LiteralStringer"
  | ExclamationPointsStringer _ => "oneof_test.ExclamationPointsStringer"
  | JoinStringer _ _ _ => "oneof_test.JoinStringer"
  | Hash _ => "crypto.Hash"
  | URL _ _ => "url.URL"
  end.

Definition natLit (n : nat) : string := NilEmpty.string_of_uint (Nat.to_uint n).

Definition parseNat (s : string) : option nat :=
  match NilEmpty.uint_of_string s with
  | Some u => if decide (s = "") then None else Some (Nat.of_uint u)
  | None => None
  end.

(** A member with [omitempty]. *)
Definition omitEmptyMember (k : string) (j : json) : list (string * json) :=
  if isEmptyJSON j then [] else [(k, j)].

Definition encodeTdata (Marshal : T tdata → M tdata json) (d : tdata) : M tdata json :=
  match d with
  | LiteralStringer s => ret (JStr s)
  | ExclamationPointsStringer n => ret (JNum (natLit n))
  | Hash n => ret (JNum (natLit n))
  | URL scheme h => ret (JObj [("Scheme", JStr scheme); ("Host", JStr h)])
  | JoinStringer a b sep =>
      do ja ← Marshal a;
      do jb ← Marshal b;
      ret (JObj (omitEmptyMember "a" ja ++ omitEmptyMember "b" jb
                 ++ omitEmptyMember "separator" (JStr sep)))
  end.

Definition decodeNat (goType : string) (j : json) : res nat :=
  match j with
  | JNum lit => match parseNat lit with
                | Some n => Ok n
                | None => Err (HostOther "cannot parse number")
                end
  | JNull => Ok 0
  | _ => Err (HostKindMismatch (kindOf j) goType)
  end.

(** Reading the members of an object into a struct, one after the other. *)
Fixpoint fillStruct {S A : Type} (field : string → json → A → St S A)
    (ms : list (string * json)) (a : A) : St S A :=
  match ms with
  | [] => ret a
  | (k, v) :: rest => do a' ← field k v a; fillStruct field rest a'
  end.

Definition decodeTdata (Unmarshal : json → T tdata → M tdata (T tdata))
    (j : json) (d : tdata) : M tdata tdata :=
  match d with
  | LiteralStringer _ => do s ← lift (decodeString j); ret (LiteralStringer s)
  | ExclamationPointsStringer _ =>
      do n ← lift (decodeNat "oneof_test.ExclamationPointsStringer" j);
      ret (ExclamationPointsStringer n)
  | Hash _ => do n ← lift (decodeNat "crypto.Hash" j); ret (Hash n)
  | URL _ _ =>
      match j with
      | JObj ms =>
          fillStruct (λ k v u,
            match u with
            | URL scheme h =>
                if decide (k = "Scheme") then do s ← lift (decodeString v); ret (URL s h)
                else if decide (k = "Host") then do s ← lift (decodeString v); ret (URL scheme s)
                else ret u
            | _ => ret u
            end) ms d
      | _ => fail (HostKindMismatch (kindOf j) "url.URL")
      end
  | JoinStringer _ _ _ =>
      match j with
      | JObj ms =>
          fillStruct (λ k v u,
            match u with
            | JoinStringer a b sep =>
                if decide (k = "a") then do a' ← Unmarshal v a; ret (JoinStringer a' b sep)
                else if decide (k = "b") then do b' ← Unmarshal v b; ret (JoinStringer a b' sep)
                else if decide (k = "separator") then
                  do s ← lift (decodeString v); ret (JoinStringer a b s)
                else ret u
            | _ => ret u
            end) ms d
      | _ => fail (HostKindMismatch (kindOf j) "oneof_test.JoinStringer")
      end
  end.

(** The host as the examples set it up: [T] is [fmt.Stringer], which
    [*jsontext.Value] satisfies; [json.Deterministic(true)]. *)
Definition testHost : Host tdata :=
  {| typeName := tdataName;
     encodeData := encodeTdata;
     decodeData := decodeTdata;
     capturesRaw := true;
     jsonopts := {| Deterministic := Some true |};
     marshalAny := λ _ j, Ok j;
     oracle := insertionOrder |}.

Definition world0 : World tdata :=
  {| marshalSkipNext := false; unmarshalSkipNext := false; heap := ∅ |}.

Definition stringerOptions : gmap string (T tdata) :=
  list_to_map [("literal", Plain (LiteralStringer ""));
               ("join", Plain (JoinStringer Nil Nil ""));
               ("exclamation", Plain (ExclamationPointsStringer 0))].

Definition helloWorld : T tdata :=
  Plain (JoinStringer
           (Plain (JoinStringer (Plain (LiteralStringer "Hello"))
                                (Plain (LiteralStringer "world")) " "))
           (Plain (ExclamationPointsStringer 2)) "").


(** A registry with a pointer option, as in the package's tests and
    README ([&url.URL{}]), and the world in which that pointer points to the
    zero [url.URL]. *)
Definition urlOptions : gmap string (T tdata) :=
  list_to_map [("url.URL", Ref "url.URL" 0)].

Definition urlWorld : World tdata :=
  {| marshalSkipNext := false; unmarshalSkipNext := false;
     heap := <[0 := URL "" ""]> ∅ |}.

(** Registries that use the empty string as a tag. *)
Definition emptyTagOptions : gmap string (T tdata) :=
  list_to_map [("", Plain (LiteralStringer ""))].

Definition emptyTagJoinOptions : gmap string (T tdata) :=
  list_to_map [("", Plain (JoinStringer Nil Nil ""))].

(** The registry of [ExampleConfig_replaceMissingTypeFunc], which leaves
    [LiteralStringer] out, and a replacement in the manner of that example. *)
Definition stringerOptionsWithoutLiteral : gmap string (T tdata) :=
  list_to_map [("join", Plain (JoinStringer Nil Nil ""));
               ("exclamation", Plain (ExclamationPointsStringer 0))].

Definition missingConfig : option (Config tdata) :=
  Some {| ReplaceMissingTypeFunc := Some (λ v, "MISSING_" ++ fmtT testHost v);
          WrapFunc := None |}.

Definition inlineConfig : option (Config tdata) :=
  Some {| ReplaceMissingTypeFunc := None; WrapFunc := Some WrapInline |}.

(** The wrapper of [ExampleCustomValueWrapper], and one with all its fields
    left empty. *)
Definition dollarWrapper : CustomValueWrapper :=
  {| DiscriminatorKey := "$type"; NestedValueKey := "$value"; InlineObjects := true |}.

Definition zeroWrapper : CustomValueWrapper :=
  {| DiscriminatorKey := ""; NestedValueKey := ""; InlineObjects := false |}.

(** ** error.go *)

(** [ErrUnknownGoType.Error] and [ErrUnknownDiscriminatorValue.Error]:
    [fmt.Sprintf] with one [%s] verb. *)
Definition ErrUnknownGoType_Error (typ : string) : string :=
  "unknown Go type " ++ typ.

Definition ErrUnknownDiscriminatorValue_Error (v : string) : string :=
  "unknown discriminator value " ++ v.

(** The same surroundings with another iteration order of maps. *)
Definition withOracle {data : Type} (host : Host data) (o : RangeOracle) : Host data :=
  {| typeName := typeName host;
     encodeData := encodeData host;
     decodeData := decodeData host;
     capturesRaw := capturesRaw host;
     jsonopts := jsonopts host;
     marshalAny := marshalAny host;
     oracle := o |}.

(** An iteration order other than [insertionOrder]. *)
Definition reverseOrder : RangeOracle :=
  {| rangeOf := λ V m, reverse (map_to_list m);
     rangeOf_perm := λ V m, reverse_Permutation (map_to_list m) |}.

(** A registry in which no option is the nil interface and no two tags
    have options of one type. *)
Definition distinctTypes {data : Type} (host : Host data) (opts : gmap string (T data)) : Prop :=
  (∀ k ot, opts !! k = Some ot → ∃ ty, strippedType host ot = Ok ty)
  ∧ ∀ k1 k2 o1 o2 ty,
      opts !! k1 = Some o1 → opts !! k2 = Some o2 →
      strippedType host o1 = Ok ty → strippedType host o2 = Ok ty → k1 = k2.

(** What [customKeyWrappedType.MarshalJSONV2] returns: success, or a failure
    that one of its [fmt.Errorf("...: %w")] sites has wrapped. *)
Definition wrappedOutcome (r : res unit) : Prop :=
  match r with
  | Ok _ | Err (ErrWriteToken _ _) | Err (ErrReencode _ _) => True
  | Err _ => False
  end.

(** * Properties *)

Ltac unfold_monad :=
  cbv [bind ret fail orWrap lift setMarshalSkipNext setUnmarshalSkipNext];
  cbn [marshalSkipNext unmarshalSkipNext heap].

Section HookLemmas.
Context {data : Type} (host : Host data).
Variable opts : gmap string (T data).
Variable cfg : option (Config data).

Lemma marshalFunc_guard_set N E t u h :
  marshalFunc host opts cfg N E t (Build_World true u h)
  = (Ok SkipFunc, Build_World false u h).
Proof. reflexivity. Qed.

Lemma unmarshalFunc_guard_set U dec ptr m h :
  unmarshalFunc host opts cfg U dec ptr (Build_World m true h)
  = (Ok SkipFunc, Build_World m false h).
Proof. reflexivity. Qed.

Lemma marshalFunc_raw N E v u h :
  marshalFunc host opts cfg N E (Raw v) (Build_World false u h)
  = (Ok SkipFunc, Build_World false u h).
Proof. reflexivity. Qed.

(** With the guard clear and a resolved discriminator, the hook issues the
    nested request with the guard set and wraps what comes back. *)
Lemma marshalFunc_intercept N E t dv u h :
  (∀ v, t ≠ Raw v) →
  resolveDiscriminator host opts cfg t = Ok dv →
  marshalFunc host opts cfg N E t (Build_World false u h)
  = match N t (Build_World true u h) with
    | (Ok b, w') =>
        match E (wrapFunc cfg dv (Some b)) w' with
        | (Ok j, w'') => (Ok (Handled j), w'')
        | (Err e, w'') => (Err e, w'')
        end
    | (Err e, w') => (Err (ErrFailedToMarshalT e), w')
    end.
Proof.
  intros Hraw Hdv. unfold marshalFunc.
  destruct t as [| d | elem l | v | d]; try (exfalso; eapply Hraw; reflexivity);
    unfold_monad; rewrite Hdv;
    destruct (N _ _) as [[b|e] w']; try reflexivity;
    destruct (E _ _) as [[j|e] w'']; reflexivity.
Qed.

Lemma marshalFunc_unresolved N E t e u h :
  (∀ v, t ≠ Raw v) →
  resolveDiscriminator host opts cfg t = Err e →
  marshalFunc host opts cfg N E t (Build_World false u h) = (Err e, Build_World false u h).
Proof.
  intros Hraw Hdv. unfold marshalFunc.
  destruct t as [| d | elem l | v | d]; try (exfalso; eapply Hraw; reflexivity);
    unfold_monad; rewrite Hdv; reflexivity.
Qed.

Lemma unmarshalFunc_wrapper_error U dec ptr e m h :
  decodeWrapped host dec (wrapFunc cfg "" None) = Err e →
  unmarshalFunc host opts cfg U dec ptr (Build_World m false h)
  = (Err (ErrFailedToDecodeWrapper e), Build_World m false h).
Proof. intros H. unfold unmarshalFunc. unfold_monad. rewrite H. reflexivity. Qed.

(** Input null: the host leaves the wrapper nil, and [w.Type()] panics. *)
Lemma unmarshalFunc_nil_wrapper U dec ptr m h :
  decodeWrapped host dec (wrapFunc cfg "" None) = Ok None →
  unmarshalFunc host opts cfg U dec ptr (Build_World m false h)
  = (Err (HostPanic "invalid memory address"), Build_World m false h).
Proof. intros H. unfold unmarshalFunc. unfold_monad. rewrite H. reflexivity. Qed.


Lemma unmarshalFunc_unknown U dec ptr w m h :
  decodeWrapped host dec (wrapFunc cfg "" None) = Ok (Some w) →
  opts !! WrappedValue_Type w = None →
  unmarshalFunc host opts cfg U dec ptr (Build_World m false h)
  = (Err (ErrUnknownDiscriminatorValue (WrappedValue_Type w)), Build_World m false h).
Proof.
  intros H Hn. unfold unmarshalFunc. unfold_monad. rewrite H, Hn. reflexivity.
Qed.

Lemma unmarshalFunc_empty_payload U dec ptr w opt m h :
  decodeWrapped host dec (wrapFunc cfg "" None) = Ok (Some w) →
  opts !! WrappedValue_Type w = Some opt →
  WrappedValue_Value w = None →
  unmarshalFunc host opts cfg U dec ptr (Build_World m false h)
  = (Ok (Handled opt), Build_World m false h).
Proof.
  intros H Ho Hv. unfold unmarshalFunc. unfold_monad. rewrite H, Ho, Hv. reflexivity.
Qed.

Lemma unmarshalFunc_intercept U dec ptr w opt payload m h :
  decodeWrapped host dec (wrapFunc cfg "" None) = Ok (Some w) →
  opts !! WrappedValue_Type w = Some opt →
  WrappedValue_Value w = Some payload →
  unmarshalFunc host opts cfg U dec ptr (Build_World m false h)
  = match U payload opt (Build_World m true h) with
    | (Ok opt', w') => (Ok (Handled opt'), w')
    | (Err e, w') => (Err (ErrFailedToUnmarshalOption e), w')
    end.
Proof.
  intros H Ho Hv. unfold unmarshalFunc. unfold_monad. rewrite H, Ho, Hv. destruct (U _ _ _) as [[o|e] w']; reflexivity.
Qed.

Lemma Marshal_unfold n t :
  Marshal host opts cfg (S n) t
  = (do r ← (if marshalHookApplies host t
             then marshalFunc host opts cfg (Marshal host opts cfg n)
                    (λ w, hostMarshal host opts cfg n (OfWrapped w)) (castTo t)
             else ret SkipFunc);
     match r with
     | SkipFunc => encodeDefault host (Marshal host opts cfg n) t
     | Handled j => ret j
     end).
Proof. reflexivity. Qed.

Lemma MarshalEncode_unfold n w :
  hostMarshal host opts cfg (S n) (OfWrapped w)
  = encodeWrapped host (Marshal host opts cfg n) w.
Proof. reflexivity. Qed.

Lemma Unmarshal_unfold n j target :
  Unmarshal host opts cfg (S n) j target
  = (do r ← unmarshalFunc host opts cfg (Unmarshal host opts cfg n) j target;
     match r with
     | SkipFunc => decodeDefault host (Unmarshal host opts cfg n) j target
     | Handled t' => ret t'
     end).
Proof. reflexivity. Qed.

(** The host entrypoints when the guard is set: the hook passes through and
    the host codes the value itself, the guard clear again. *)
Lemma Marshal_guard_set n t u h :
  marshalHookApplies host t = true →
  Marshal host opts cfg (S n) t (Build_World true u h)
  = encodeDefault host (Marshal host opts cfg n) t (Build_World false u h).
Proof.
  intros Ha. rewrite Marshal_unfold, Ha. reflexivity.
Qed.

Lemma Unmarshal_guard_set n j target m h :
  Unmarshal host opts cfg (S n) j target (Build_World m true h)
  = decodeDefault host (Unmarshal host opts cfg n) j target (Build_World m false h).
Proof. reflexivity. Qed.

End HookLemmas.

Section GuardClaims.
Context {data : Type} (host : Host data).
Variable opts : gmap string (T data).
Variable cfg : option (Config data).

(** C2 (amended).  The recursion guard suppresses exactly one re-entrant
    interception per logical encode or decode.  (1) A hook entered with its
    guard set clears it and returns the pass-through signal, whatever the
    value.  (2) A hook entered with its guard clear that needs the default
    coding of a value issues the nested request in a world where the guard
    is set, and wraps what the request returns.  (3) The host entrypoint
    called with the guard set codes the value itself, in a world where the
    guard is clear again.  (4) Entered with the guard clear, the unmarshal
    hook never passes through, and the marshal hook never passes through on
    a value other than a [*jsontext.Value]. *)
Theorem guard_suppresses_one_interception
    (n : nat) (t : T data) (dv : string)
    (dec : json) (w : WrappedValue) (opt : T data) (payload : json)
    (mg ug : bool) (h : gmap loc data) :
  (∀ v, t ≠ Raw v) →
  marshalHookApplies host t = true →
  resolveDiscriminator host opts cfg t = Ok dv →
  decodeWrapped host dec (wrapFunc cfg "" None) = Ok (Some w) →
  opts !! WrappedValue_Type w = Some opt →
  WrappedValue_Value w = Some payload →
  (∀ N E t', marshalFunc host opts cfg N E t' (Build_World true ug h)
             = (Ok SkipFunc, Build_World false ug h))
  ∧ (∀ U dec' ptr, unmarshalFunc host opts cfg U dec' ptr (Build_World mg true h)
                   = (Ok SkipFunc, Build_World mg false h))
  ∧ (∀ N E, marshalFunc host opts cfg N E t (Build_World false ug h)
            = match N t (Build_World true ug h) with
              | (Ok b, w') =>
                  match E (wrapFunc cfg dv (Some b)) w' with
                  | (Ok j, w'') => (Ok (Handled j), w'')
                  | (Err e, w'') => (Err e, w'')
                  end
              | (Err e, w') => (Err (ErrFailedToMarshalT e), w')
              end)
  ∧ (∀ U ptr, unmarshalFunc host opts cfg U dec ptr (Build_World mg false h)
              = match U payload opt (Build_World mg true h) with
                | (Ok opt', w') => (Ok (Handled opt'), w')
                | (Err e, w') => (Err (ErrFailedToUnmarshalOption e), w')
                end)
  ∧ Marshal host opts cfg (S n) t (Build_World true ug h)
    = encodeDefault host (Marshal host opts cfg n) t (Build_World false ug h)
  ∧ Unmarshal host opts cfg (S n) payload opt (Build_World mg true h)
    = decodeDefault host (Unmarshal host opts cfg n) payload opt (Build_World mg false h)
  ∧ (∀ N E t', (∀ v, t' ≠ Raw v) →
               (marshalFunc host opts cfg N E t' (Build_World false ug h)).1 ≠ Ok SkipFunc)
  ∧ (∀ U dec' ptr,
       (unmarshalFunc host opts cfg U dec' ptr (Build_World mg false h)).1 ≠ Ok SkipFunc).
Proof.
  intros Hraw Happ Hdv Hw Hopt Hpay.
  split; [intros; apply marshalFunc_guard_set |].
  split; [intros; apply unmarshalFunc_guard_set |].
  split; [intros; by apply marshalFunc_intercept |].
  split; [intros; by eapply unmarshalFunc_intercept |].
  split; [by apply Marshal_guard_set |].
  split; [apply Unmarshal_guard_set |].
  split.
  - intros N E t' Hraw'.
    destruct (resolveDiscriminator host opts cfg t') as [dv'|e] eqn:Hr.
    + rewrite (marshalFunc_intercept host opts cfg N E t' dv') by done.
      destruct (N _ _) as [[b|e] w']; [|done].
      destruct (E _ _) as [[j|e] w'']; done.
    + by rewrite (marshalFunc_unresolved host opts cfg N E t' e).
  - intros U dec' ptr.
    destruct (decodeWrapped host dec' (wrapFunc cfg "" None)) as [[w1|]|e] eqn:Hd.
    + destruct (opts !! WrappedValue_Type w1) as [o|] eqn:Ho.
      * destruct (WrappedValue_Value w1) as [p|] eqn:Hp.
        -- rewrite (unmarshalFunc_intercept host opts cfg U dec' ptr w1 o p) by done.
           destruct (U _ _ _) as [[o'|e] w']; done.
        -- by rewrite (unmarshalFunc_empty_payload host opts cfg U dec' ptr w1 o).
      * by rewrite (unmarshalFunc_unknown host opts cfg U dec' ptr w1).
    + by rewrite (unmarshalFunc_nil_wrapper host opts cfg U dec' ptr).
    + by rewrite (unmarshalFunc_wrapper_error host opts cfg U dec' ptr e).
Qed.

(** C8 (amended).  On a [*jsontext.Value] the marshal hook returns the
    pass-through signal in either state of the guard and without any nested
    request, and leaves the guard clear: a guard that was set is consumed by
    this invocation (the guard is tested first).  The unmarshal hook does
    not look at what its destination holds: with the guard clear it
    intercepts a destination holding a [*jsontext.Value] as it does any
    other. *)
Theorem raw_payload_passes_through_marshal_hook
    (v : Value) (g ug : bool) (h : gmap loc data) (n : nat) (dec : json) (target : T data) :
  (∀ N E, marshalFunc host opts cfg N E (Raw v) (Build_World g ug h)
          = (Ok SkipFunc, Build_World false ug h))
  ∧ (∀ U, unmarshalFunc host opts cfg U dec (Raw v) (Build_World g false h)
          = unmarshalFunc host opts cfg U dec target (Build_World g false h))
  ∧ (∀ U, (unmarshalFunc host opts cfg U dec (Raw v) (Build_World g false h)).1 ≠ Ok SkipFunc).
Proof.
  split; [intros N E; by destruct g |].
  split; [reflexivity |].
  intros U.
  destruct (decodeWrapped host dec (wrapFunc cfg "" None)) as [[w1|]|e] eqn:Hd.
  - destruct (opts !! WrappedValue_Type w1) as [o|] eqn:Ho.
    + destruct (WrappedValue_Value w1) as [p|] eqn:Hp.
      * rewrite (unmarshalFunc_intercept host opts cfg U dec _ w1 o p) by done.
        destruct (U _ _ _) as [[o'|e] w']; done.
      * by rewrite (unmarshalFunc_empty_payload host opts cfg U dec _ w1 o).
    + by rewrite (unmarshalFunc_unknown host opts cfg U dec _ w1).
  - by rewrite (unmarshalFunc_nil_wrapper host opts cfg U dec _).
  - by rewrite (unmarshalFunc_wrapper_error host opts cfg U dec _ e).
Qed.

End GuardClaims.

Section Resolution.
Context {data : Type} (host : Host data).
Variable opts : gmap string (T data).
Variable cfg : option (Config data).

Lemma firstMatch_none ty (entries : list (string * T data)) :
  (∀ k ot, (k, ot) ∈ entries → ∃ ty', strippedType host ot = Ok ty' ∧ ty' ≠ ty) →
  firstMatch host ty entries = Ok "".
Proof.
  induction entries as [|[k ot] rest IH]; intros Hall; [reflexivity|].
  simpl. destruct (Hall k ot ltac:(left)) as (ty' & -> & Hne).
  rewrite decide_False by done. apply IH. intros k' ot' Hin. apply (Hall k' ot'). by right.
Qed.

Lemma firstMatch_only ty d (entries : list (string * T data)) :
  d ∈ entries.*1 →
  (∀ ot, (d, ot) ∈ entries → strippedType host ot = Ok ty) →
  (∀ k ot, (k, ot) ∈ entries → k ≠ d → ∃ ty', strippedType host ot = Ok ty' ∧ ty' ≠ ty) →
  firstMatch host ty entries = Ok d.
Proof.
  induction entries as [|[k ot] rest IH]; intros Hd Hmine Hothers.
  - by apply elem_of_nil in Hd.
  - simpl. destruct (decide (k = d)) as [Hk|Hk].
    + rewrite (Hmine ot) by (rewrite <- Hk; left).
      rewrite decide_True by done. by rewrite Hk.
    + destruct (Hothers k ot ltac:(left) Hk) as (ty' & Hty & Hne). rewrite Hty.
      rewrite decide_False by done. apply IH.
      * simpl in Hd. apply elem_of_cons in Hd as [Heq|Hd]; [congruence|done].
      * intros ot' Hin. apply Hmine. by right.
      * intros k' ot' Hin. apply (Hothers k' ot'). by right.
Qed.

Lemma discriminatorValueFor_none t ty :
  strippedType host t = Ok ty →
  noOptionOfType host opts ty →
  discriminatorValueFor host t opts = Ok ("", false).
Proof.
  intros Ht Hno. unfold discriminatorValueFor. rewrite Ht.
  rewrite firstMatch_none; [done|].
  intros k ot Hin. apply (Hno k).
  rewrite (rangeOf_perm (oracle host)) in Hin. by apply elem_of_map_to_list in Hin.
Qed.

Lemma discriminatorValueFor_only t ty d :
  strippedType host t = Ok ty →
  d ≠ "" →
  onlyOptionOfType host opts d ty →
  discriminatorValueFor host t opts = Ok (d, true).
Proof.
  intros Ht Hd [(proto & Hp & Hty) Hothers]. unfold discriminatorValueFor. rewrite Ht.
  rewrite (firstMatch_only ty d).
  - by rewrite decide_False.
  - apply list_elem_of_fmap. exists (d, proto). split; [done|].
    rewrite (rangeOf_perm (oracle host)). by apply elem_of_map_to_list.
  - intros ot Hin.
    rewrite (rangeOf_perm (oracle host)) in Hin. apply elem_of_map_to_list in Hin.
    congruence.
  - intros k ot Hin Hne.
    rewrite (rangeOf_perm (oracle host)) in Hin. apply elem_of_map_to_list in Hin.
    by eapply Hothers.
Qed.

(** The host encoding a field of type [jsontext.Value]: the raw value goes
    out as it is, null for the empty one. *)
Lemma Marshal_raw n v (w : World data) :
  Marshal host opts cfg (S n) (Raw v) w = (Ok (default JNull v), afterRawField host w).
Proof.
  unfold Marshal, afterRawField. simpl. destruct w as [g u h].
  destruct (capturesRaw host); simpl; [destruct g|]; unfold_monad;
    rewrite ?andb_true_r, ?andb_false_r; reflexivity.
Qed.

Lemma taggedMembers_eval n typ v (w : World data) :
  taggedMembers (Marshal host opts cfg (S n)) typ v w
  = (Ok (("_type", JStr typ) :: (if isEmptyJSON (default JNull v) then []
                                  else [("_value", default JNull v)])),
     afterRawField host w).
Proof.
  unfold taggedMembers. unfold_monad. by rewrite Marshal_raw.
Qed.

End Resolution.

Section EncodeClaims.
Context {data : Type} (host : Host data).
Variable opts : gmap string (T data).
Variable cfg : option (Config data).

Lemma strippedType_applies (t : T data) ty :
  (∀ v, t ≠ Raw v) → strippedType host t = Ok ty → marshalHookApplies host t = true.
Proof. intros Hraw Hty. destruct t; try done. by exfalso; eapply Hraw. Qed.

(** The pointer that the hook receives has the type of the value behind it,
    is encoded as the value is, and is no [*jsontext.Value] unless the value
    is one. *)
Lemma strippedType_castTo (t : T data) : strippedType host (castTo t) = strippedType host t.
Proof. by destruct t. Qed.

Lemma discriminatorValueFor_castTo (t : T data) :
  discriminatorValueFor host (castTo t) opts = discriminatorValueFor host t opts.
Proof. unfold discriminatorValueFor. by rewrite strippedType_castTo. Qed.

Lemma encodeDefault_castTo (N : T data → M data json) (t : T data) :
  encodeDefault host N (castTo t) = encodeDefault host N t.
Proof. by destruct t. Qed.

Lemma marshalHookApplies_castTo (t : T data) :
  marshalHookApplies host (castTo t) = marshalHookApplies host t.
Proof. by destruct t. Qed.

Lemma castTo_not_raw (t : T data) : (∀ v, t ≠ Raw v) → ∀ v, castTo t ≠ Raw v.
Proof. intros Hraw v. destruct t; done. Qed.

Lemma fmtT_castTo_plain (d : data) : fmtT host (castTo (Plain d)) = "*" ++ typeName host d.
Proof. reflexivity. Qed.

(** One logical encode: the hook intercepts, obtains the host's own encoding
    of the value through the guarded nested request, and has the wrapper
    encoded. *)
Lemma Marshal_intercepted n t dv p w1 ug h :
  (∀ v, t ≠ Raw v) →
  marshalHookApplies host t = true →
  resolveDiscriminator host opts cfg (castTo t) = Ok dv →
  encodeDefault host (Marshal host opts cfg (S n)) t (Build_World false ug h) = (Ok p, w1) →
  Marshal host opts cfg (S (S (S n))) t (Build_World false ug h)
  = encodeWrapped host (Marshal host opts cfg (S n)) (wrapFunc cfg dv (Some p)) w1.
Proof.
  intros Hraw Happ Hdv Henc.
  rewrite Marshal_unfold, Happ. unfold bind at 1.
  rewrite (marshalFunc_intercept host opts cfg _ _ (castTo t) dv)
    by (done || by apply castTo_not_raw).
  rewrite Marshal_guard_set by (by rewrite marshalHookApplies_castTo).
  rewrite encodeDefault_castTo, Henc, MarshalEncode_unfold.
  destruct (encodeWrapped _ _ _ _) as [[j|e] w2]; reflexivity.
Qed.

Lemma encodeWrapped_nested n typ p (w : World data) :
  encodeWrapped host (Marshal host opts cfg (S n)) (WrapNested typ (Some p)) w
  = (Ok (JObj (("_type", JStr typ) :: omitEmptyMember "_value" p)), afterRawField host w).
Proof.
  unfold WrapNested, encodeWrapped. cbn [anTyp anNestedValue].
  unfold bind. rewrite taggedMembers_eval. reflexivity.
Qed.

(** C7 (amended).  A value that is not a [*jsontext.Value] and whose type
    no option has.  The hook sees it as the host hands it over, [castTo t]:
    a pointer to the value.  Without [ReplaceMissingTypeFunc] marshaling
    fails with [ErrUnknownGoType] for the type of that pointer; with
    [ReplaceMissingTypeFunc f] and a host that encodes the value to [p],
    marshaling hands the wrapper of [f (castTo t)] and [p] to the host, and
    with the default [WrapNested] the output is the object of ["_type"] with
    that tag and ["_value": p], whether or not the tag is a key of the
    registry.  For a non-pointer value the type that is reported starts
    with a star. *)
Theorem unregistered_type_fails_or_uses_fallback
    (n : nat) (t : T data) (ty : rtype) (ug : bool) (h : gmap loc data) :
  (∀ v, t ≠ Raw v) →
  strippedType host t = Ok ty →
  noOptionOfType host opts ty →
  (replaceMissingTypeFunc cfg = None →
     Marshal host opts cfg (S n) t (Build_World false ug h)
     = (Err (ErrUnknownGoType (fmtT host (castTo t))), Build_World false ug h))
  ∧ (∀ f p w1,
       replaceMissingTypeFunc cfg = Some f →
       encodeDefault host (Marshal host opts cfg (S n)) t (Build_World false ug h) = (Ok p, w1) →
       Marshal host opts cfg (S (S (S n))) t (Build_World false ug h)
       = encodeWrapped host (Marshal host opts cfg (S n))
           (wrapFunc cfg (f (castTo t)) (Some p)) w1
       ∧ (wrapFunc cfg = WrapNested →
          Marshal host opts cfg (S (S (S n))) t (Build_World false ug h)
          = (Ok (JObj (("_type", JStr (f (castTo t))) :: omitEmptyMember "_value" p)),
             afterRawField host w1)))
  ∧ (∀ d, t = Plain d → fmtT host (castTo t) = "*" ++ typeName host d).
Proof.
  intros Hraw Hty Hno.
  pose proof (strippedType_applies t ty Hraw Hty) as Happ.
  assert (discriminatorValueFor host (castTo t) opts = Ok ("", false)) as Hd.
  { rewrite discriminatorValueFor_castTo.
    by apply (discriminatorValueFor_none host opts t ty). }
  split; [|split].
  - intros Hnone. rewrite Marshal_unfold, Happ. unfold bind.
    rewrite (marshalFunc_unresolved host opts cfg _ _ (castTo t)
               (ErrUnknownGoType (fmtT host (castTo t))));
      [done | by apply castTo_not_raw |].
    unfold resolveDiscriminator. by rewrite Hd, Hnone.
  - intros f p w1 Hf Henc.
    assert (resolveDiscriminator host opts cfg (castTo t) = Ok (f (castTo t))) as Hres.
    { unfold resolveDiscriminator. by rewrite Hd, Hf. }
    pose proof (Marshal_intercepted n t (f (castTo t)) p w1 ug h Hraw Happ Hres Henc) as HM.
    split; [exact HM|].
    intros Hwrap. rewrite HM, Hwrap. apply encodeWrapped_nested.
  - intros d ->. reflexivity.
Qed.

End EncodeClaims.

Section WrapperDecoding.
Context {data : Type} (host : Host data).

Lemma decodeWrapped_nested_tag_only d :
  decodeWrapped host (JObj [("_type", JStr d)]) (WrapNested "" None)
  = Ok (Some (AlwaysNest {| anTyp := d; anNestedValue := None |})).
Proof. reflexivity. Qed.

Lemma decodeWrapped_nested_wire d p :
  isEmptyJSON p = false →
  decodeWrapped host (nestedWire d p) (WrapNested "" None)
  = Ok (Some (AlwaysNest {| anTyp := d; anNestedValue := Some p |})).
Proof. intros Hp. unfold nestedWire. rewrite Hp. reflexivity. Qed.

Lemma foldl_appendInline pre (ms : list (string * json)) :
  foldl (λ acc kv, appendInline acc kv.1 kv.2) (Some (JObj pre)) ms = Some (JObj (pre ++ ms)).
Proof.
  revert pre. induction ms as [|[k v] rest IH]; intros pre; simpl.
  - by rewrite app_nil_r.
  - rewrite IH. by rewrite <- app_assoc.
Qed.

Lemma fillInlineObjects_siblings (ms : list (string * json)) :
  ∀ seen w,
    NoDup (names ms) →
    (∀ k, k ∈ names ms → (k ∉ seen) ∧ k ≠ "_type" ∧ k ≠ "_value") →
    fillInlineObjects seen ms w
    = Ok {| ioTyp := ioTyp w; ioNestedValue := ioNestedValue w;
            ioInlineValue := foldl (λ acc kv, appendInline acc kv.1 kv.2) (ioInlineValue w) ms |}.
Proof.
  induction ms as [|[k v] rest IH]; intros seen w Hnd Hfresh.
  - by destruct w.
  - apply NoDup_cons in Hnd as [Hk Hnd].
    destruct (Hfresh k ltac:(left)) as (Hseen & Ht & Hv).
    cbn [fillInlineObjects]. rewrite !decide_False by done.
    rewrite IH; [done | done |].
    intros k' Hin. destruct (Hfresh k' ltac:(by right)) as (Hs' & Ht' & Hv').
    split; [|done]. intros [->|Hin']%elem_of_cons; done.
Qed.

Lemma fillInlineObjects_tag d (ms : list (string * json)) w :
  fillInlineObjects [] (("_type", JStr d) :: ms) w
  = fillInlineObjects ["_type"] ms
      {| ioTyp := d; ioNestedValue := ioNestedValue w; ioInlineValue := ioInlineValue w |}.
Proof. reflexivity. Qed.

Lemma decodeWrapped_inline_object d k v rest :
  inlineSafe (JObj ((k, v) :: rest)) →
  decodeWrapped host (JObj (("_type", JStr d) :: (k, v) :: rest)) (WrapInline "" None)
  = Ok (Some (InlineObjectsW {| ioTyp := d; ioNestedValue := None;
                          ioInlineValue := Some (JObj ((k, v) :: rest)) |})).
Proof.
  intros (Hnd & Ht & Hv).
  change (WrapInline "" None)
    with (InlineObjectsW {| ioTyp := ""; ioNestedValue := None; ioInlineValue := None |}).
  cbn [decodeWrapped]. rewrite fillInlineObjects_tag.
  rewrite (fillInlineObjects_siblings ((k, v) :: rest)); [| done |].
  - cbn [ioTyp ioNestedValue ioInlineValue foldl appendInline fst snd].
    by rewrite foldl_appendInline.
  - intros k' Hin. split; [|split]; [| by intros -> | by intros ->].
    intros ->%list_elem_of_singleton. done.
Qed.

Lemma decodeWrapped_inline_tag_only d :
  decodeWrapped host (JObj [("_type", JStr d)]) (WrapInline "" None)
  = Ok (Some (InlineObjectsW {| ioTyp := d; ioNestedValue := None; ioInlineValue := None |})).
Proof. reflexivity. Qed.

Lemma decodeWrapped_inline_nested d p :
  isEmptyJSON p = false →
  decodeWrapped host (nestedWire d p) (WrapInline "" None)
  = Ok (Some (InlineObjectsW {| ioTyp := d; ioNestedValue := Some p; ioInlineValue := None |})).
Proof. intros Hp. unfold nestedWire. rewrite Hp. reflexivity. Qed.

End WrapperDecoding.

Section RoundTrip.
Context {data : Type} (host : Host data).
Variable opts : gmap string (T data).
Variable cfg : option (Config data).

(** One logical decode of a wrapper that carries a payload. *)
Lemma Unmarshal_intercepted m dec ptr w opt payload mg h :
  decodeWrapped host dec (wrapFunc cfg "" None) = Ok (Some w) →
  opts !! WrappedValue_Type w = Some opt →
  WrappedValue_Value w = Some payload →
  Unmarshal host opts cfg (S (S m)) dec ptr (Build_World mg false h)
  = match decodeDefault host (Unmarshal host opts cfg m) payload opt (Build_World mg false h) with
    | (Ok opt', w') => (Ok opt', w')
    | (Err e, w') => (Err (ErrFailedToUnmarshalOption e), w')
    end.
Proof.
  intros Hw Ho Hv. rewrite Unmarshal_unfold. unfold bind at 1.
  rewrite (unmarshalFunc_intercept host opts cfg _ dec ptr w opt payload) by done.
  rewrite Unmarshal_guard_set.
  destruct (decodeDefault _ _ _ _ _) as [[o|e] w']; reflexivity.
Qed.

(** One logical decode of a wrapper without payload: the registered option
    is the result. *)
Lemma Unmarshal_no_payload m dec ptr w opt mg h :
  decodeWrapped host dec (wrapFunc cfg "" None) = Ok (Some w) →
  opts !! WrappedValue_Type w = Some opt →
  WrappedValue_Value w = None →
  Unmarshal host opts cfg (S m) dec ptr (Build_World mg false h)
  = (Ok opt, Build_World mg false h).
Proof.
  intros Hw Ho Hv. rewrite Unmarshal_unfold. unfold bind at 1.
  by rewrite (unmarshalFunc_empty_payload host opts cfg _ dec ptr w opt).
Qed.

Lemma encodeWrapped_nested_wire n d p (w : World data) :
  encodeWrapped host (Marshal host opts cfg (S n)) (WrapNested d (Some p)) w
  = (Ok (nestedWire d p), afterRawField host w).
Proof. apply encodeWrapped_nested. Qed.

Lemma encodeWrapped_inline_wire n d p (w : World data) :
  inlineSafe p →
  encodeWrapped host (Marshal host opts cfg (S n)) (WrapInline d (Some p)) w
  = (Ok (inlineWire d p), afterRawField host w).
Proof.
  intros Hsafe. unfold WrapInline, encodeWrapped.
  destruct p as [| b | lit | s | elems | ms];
    cbn [ValueKind kindOf bool_decide decide_rel]; try destruct b;
    try (rewrite bool_decide_eq_false_2 by done;
         cbn [ioTyp ioNestedValue ioInlineValue]; unfold bind;
         rewrite taggedMembers_eval; reflexivity).
  rewrite bool_decide_eq_true_2 by done.
  cbn [ioTyp ioNestedValue ioInlineValue]. unfold bind.
  rewrite taggedMembers_eval. cbn [default isEmptyJSON inlineWire].
  destruct Hsafe as (Hnd & Ht & Hv).
  rewrite decide_True; [reflexivity|].
  cbn. by apply NoDup_cons.
Qed.

Lemma decode_nested_wire m d proto p t w3 ptr mg h :
  wrapFunc cfg = WrapNested →
  opts !! d = Some proto →
  (if isEmptyJSON p then proto = t ∧ w3 = Build_World mg false h
   else decodeDefault host (Unmarshal host opts cfg m) p proto (Build_World mg false h)
        = (Ok t, w3)) →
  Unmarshal host opts cfg (S (S m)) (nestedWire d p) ptr (Build_World mg false h) = (Ok t, w3).
Proof.
  intros Hwrap Hproto Hdec. destruct (isEmptyJSON p) eqn:Hp.
  - destruct Hdec as [-> ->]. unfold nestedWire. rewrite Hp.
    eapply Unmarshal_no_payload; [by rewrite Hwrap | done..].
  - rewrite (Unmarshal_intercepted m _ ptr
               (AlwaysNest {| anTyp := d; anNestedValue := Some p |}) proto p).
    + by rewrite Hdec.
    + rewrite Hwrap. by apply decodeWrapped_nested_wire.
    + done.
    + done.
Qed.

Lemma decode_inline_wire m d proto p t w3 ptr mg h :
  wrapFunc cfg = WrapInline →
  inlineSafe p →
  opts !! d = Some proto →
  (if isEmptyJSON p then proto = t ∧ w3 = Build_World mg false h
   else decodeDefault host (Unmarshal host opts cfg m) p proto (Build_World mg false h)
        = (Ok t, w3)) →
  Unmarshal host opts cfg (S (S m)) (inlineWire d p) ptr (Build_World mg false h) = (Ok t, w3).
Proof.
  intros Hwrap Hsafe Hproto Hdec. destruct (isEmptyJSON p) eqn:Hp.
  - destruct Hdec as [-> ->].
    assert (inlineWire d p = JObj [("_type", JStr d)]) as ->.
    { destruct p as [| | | s | elems | ms]; try done;
        [destruct s | destruct elems | destruct ms]; try done;
        unfold inlineWire, nestedWire; by rewrite ?Hp. }
    eapply Unmarshal_no_payload; [by rewrite Hwrap | done..].
  - destruct p as [| b | lit | s | elems | [|[k v] rest]];
      try (simpl in Hp; discriminate Hp).
    5: { rewrite (Unmarshal_intercepted m _ ptr
                    (InlineObjectsW {| ioTyp := d; ioNestedValue := None;
                                       ioInlineValue := Some (JObj ((k, v) :: rest)) |})
                    proto (JObj ((k, v) :: rest))).
         - by rewrite Hdec.
         - rewrite Hwrap. by apply decodeWrapped_inline_object.
         - done.
         - done. }
    all: match goal with
         | |- context [inlineWire ?tag ?q] =>
             rewrite (Unmarshal_intercepted m _ ptr
                        (InlineObjectsW {| ioTyp := tag; ioNestedValue := Some q;
                                           ioInlineValue := None |}) proto q);
             [ by rewrite Hdec
             | rewrite Hwrap; by apply decodeWrapped_inline_nested
             | done | done ]
         end.
Qed.

End RoundTrip.

Section RoundTripClaims.
Context {data : Type} (host : Host data).
Variable opts : gmap string (T data).
Variable cfg : option (Config data).

Lemma resolve_only (t : T data) ty d :
  strippedType host t = Ok ty →
  d ≠ "" →
  onlyOptionOfType host opts d ty →
  resolveDiscriminator host opts cfg t = Ok d.
Proof.
  intros Hty Hd Honly. unfold resolveDiscriminator.
  by rewrite (discriminatorValueFor_only host opts t ty d).
Qed.

(** The round trip away from the empty tag.  Let [t] be a value whose type
    is registered under the non-empty tag [d] and under no other tag, let
    the host encode [t] to [p], and let the host decode [p] into the
    registered option back to [t] (when [p] is empty the payload is dropped
    from the wire, and the registered option itself has to be [t]).  Then
    marshaling [t] gives the nested wire form under [WrapNested], and the
    inline wire form under [WrapInline] when an object payload can be
    merged; and unmarshaling that output with the same options and
    configuration gives [t]. *)
Theorem marshal_then_unmarshal_round_trip
    (n m : nat) (t : T data) (ty : rtype) (d : string) (proto : T data) (p : json)
    (w1 w3 : World data) (ug mg : bool) (h h2 : gmap loc data) (ptr : T data) :
  (∀ v, t ≠ Raw v) →
  strippedType host t = Ok ty →
  d ≠ "" →
  onlyOptionOfType host opts d ty →
  opts !! d = Some proto →
  encodeDefault host (Marshal host opts cfg (S n)) t (Build_World false ug h) = (Ok p, w1) →
  (if isEmptyJSON p then proto = t ∧ w3 = Build_World mg false h2
   else decodeDefault host (Unmarshal host opts cfg m) p proto (Build_World mg false h2)
        = (Ok t, w3)) →
  (wrapFunc cfg = WrapNested →
     Marshal host opts cfg (S (S (S n))) t (Build_World false ug h)
     = (Ok (nestedWire d p), afterRawField host w1)
     ∧ Unmarshal host opts cfg (S (S m)) (nestedWire d p) ptr (Build_World mg false h2)
       = (Ok t, w3))
  ∧ (wrapFunc cfg = WrapInline →
     inlineSafe p →
     Marshal host opts cfg (S (S (S n))) t (Build_World false ug h)
     = (Ok (inlineWire d p), afterRawField host w1)
     ∧ Unmarshal host opts cfg (S (S m)) (inlineWire d p) ptr (Build_World mg false h2)
       = (Ok t, w3)).
Proof.
  intros Hraw Hty Hd Honly Hproto Henc Hdec.
  pose proof (strippedType_applies host t ty Hraw Hty) as Happ.
  assert (resolveDiscriminator host opts cfg (castTo t) = Ok d) as Hres.
  { apply (resolve_only (castTo t) ty d); [by rewrite strippedType_castTo | done..]. }
  pose proof (Marshal_intercepted host opts cfg n t d p w1 ug h Hraw Happ Hres Henc) as HM.
  split.
  - intros Hwrap. split.
    + rewrite HM, Hwrap. apply encodeWrapped_nested_wire.
    + by apply (decode_nested_wire host opts cfg m d proto p t w3 ptr mg h2).
  - intros Hwrap Hsafe. split.
    + rewrite HM, Hwrap. by apply encodeWrapped_inline_wire.
    + by apply (decode_inline_wire host opts cfg m d proto p t w3 ptr mg h2).
Qed.

(** Omission of an empty payload away from the empty tag.  Let the type of
    [t] be registered under the non-empty tag [d] and under no other tag,
    and let the host encode [t] to the empty object.  With the default
    [WrapNested], marshaling [t] gives exactly the object with the single
    member ["_type": d]; and unmarshaling that object gives the option
    registered for [d], whatever the nested entrypoint would do: no nested
    request is issued and the guard stays clear. *)
Theorem empty_object_payload_is_omitted
    (n m : nat) (t : T data) (ty : rtype) (d : string) (proto : T data)
    (w1 : World data) (ug mg : bool) (h h2 : gmap loc data) (ptr : T data) :
  (∀ v, t ≠ Raw v) →
  strippedType host t = Ok ty →
  d ≠ "" →
  onlyOptionOfType host opts d ty →
  opts !! d = Some proto →
  wrapFunc cfg = WrapNested →
  encodeDefault host (Marshal host opts cfg (S n)) t (Build_World false ug h)
  = (Ok (JObj []), w1) →
  Marshal host opts cfg (S (S (S n))) t (Build_World false ug h)
  = (Ok (JObj [("_type", JStr d)]), afterRawField host w1)
  ∧ (∀ U, unmarshalFunc host opts cfg U (JObj [("_type", JStr d)]) ptr (Build_World mg false h2)
          = (Ok (Handled proto), Build_World mg false h2))
  ∧ Unmarshal host opts cfg (S m) (JObj [("_type", JStr d)]) ptr (Build_World mg false h2)
    = (Ok proto, Build_World mg false h2).
Proof.
  intros Hraw Hty Hd Honly Hproto Hwrap Henc.
  pose proof (strippedType_applies host t ty Hraw Hty) as Happ.
  assert (resolveDiscriminator host opts cfg (castTo t) = Ok d) as Hres.
  { apply (resolve_only (castTo t) ty d); [by rewrite strippedType_castTo | done..]. }
  split; [|split].
  - rewrite (Marshal_intercepted host opts cfg n t d (JObj []) w1 ug h) by done.
    rewrite Hwrap. apply encodeWrapped_nested_wire.
  - intros U.
    apply (unmarshalFunc_empty_payload host opts cfg U _ ptr
             (AlwaysNest {| anTyp := d; anNestedValue := None |}) proto); [|done..].
    by rewrite Hwrap.
  - apply (Unmarshal_no_payload host opts cfg m _ ptr
             (AlwaysNest {| anTyp := d; anNestedValue := None |}) proto); [|done..].
    by rewrite Hwrap.
Qed.

End RoundTripClaims.

Section CustomWrapperDecoding.
Variable marshalAny' : Options → json → res json.
Variable w : customKeyWrappedType.
Variable jsonopts' : Options.


Lemma decodeMap_object (ms : list (string * json)) :
  NoDup (names ms) → decodeMap (JObj ms) = Ok (list_to_map ms).
Proof. intros Hnd. unfold decodeMap. by rewrite decide_True. Qed.



Lemma size_pos_lookup (m : gmap string json) k v : m !! k = Some v → 0 < size m.
Proof.
  intros Hl. destruct (decide (size m = 0)) as [H0|]; [|lia].
  apply map_size_empty_inv in H0. subst. by rewrite lookup_empty in Hl.
Qed.

Lemma UnmarshalJSONV2_ambiguous ms dvs nv k v :
  NoDup (names ms) →
  (discriminatorKey w, JStr dvs) ∈ ms →
  (nestedValueKey w, nv) ∈ ms →
  (k, v) ∈ ms →
  discriminatorKey w ≠ nestedValueKey w →
  k ≠ discriminatorKey w →
  k ≠ nestedValueKey w →
  UnmarshalJSONV2 marshalAny' w (JObj ms) jsonopts' = Err ErrBothInlineAndNested.
Proof.
  intros Hnd Hd Hn Hk Hdn Hkd Hkn. unfold UnmarshalJSONV2. cbn [kindOf negb].
  rewrite bool_decide_eq_true_2 by done. cbn [negb].
  rewrite decodeMap_object by done.
  rewrite (elem_of_list_to_map_1 ms (discriminatorKey w) (JStr dvs)) by done.
  pose proof (elem_of_list_to_map_1 (M:=gmap string) ms _ _ Hnd Hn) as Hln.
  pose proof (elem_of_list_to_map_1 (M:=gmap string) ms _ _ Hnd Hk) as Hlk.
  cbv zeta.
  rewrite decide_False; last first.
  { intros H0. apply map_size_empty_inv in H0.
    assert (delete (discriminatorKey w) (list_to_map ms : gmap string json)
              !! nestedValueKey w = Some nv) as Hl by (by rewrite lookup_delete_ne).
    rewrite H0 in Hl. by rewrite lookup_empty in Hl. }
  rewrite lookup_delete_ne by done. rewrite Hln.
  rewrite decide_True; [done|].
  apply (size_pos_lookup _ k v). by rewrite !lookup_delete_ne.
Qed.

End CustomWrapperDecoding.

Section StructDecoding.

(** No member is named ["_type"]: [Typ] keeps the value it had. *)
Lemma fillAlwaysNest_no_tag (ms : list (string * json)) :
  ∀ seen w,
    NoDup (names ms) →
    (∀ k, k ∈ names ms → k ∉ seen) →
    "_type" ∉ names ms →
    ∃ nv, fillAlwaysNest seen ms w = Ok {| anTyp := anTyp w; anNestedValue := nv |}.
Proof.
  induction ms as [|[k v] rest IH]; intros seen w Hnd Hfresh Htag.
  - exists (anNestedValue w). by destruct w.
  - apply NoDup_cons in Hnd as [Hk Hnd].
    apply not_elem_of_cons in Htag as [Hne Htag].
    assert (∀ k', k' ∈ names rest → k' ∉ k :: seen) as Hfresh'.
    { intros k' Hin [->|Hs]%elem_of_cons; [done|].
      by apply (Hfresh k' ltac:(by right)). }
    cbn [fillAlwaysNest].
    rewrite decide_False by (apply Hfresh; left).
    rewrite decide_False by done.
    destruct (decide (k = "_value")).
    + destruct (IH (k :: seen) {| anTyp := anTyp w; anNestedValue := Some v |}
                  Hnd Hfresh' Htag) as [nv Hnv].
      exists nv. by rewrite Hnv.
    + by apply IH.
Qed.


End StructDecoding.

Section ShapeClaims.
Context {data : Type} (host : Host data).
Variable opts : gmap string (T data).

(** C4 (amended).  Decoding with a [CustomValueWrapper] (whether or not it
    has [InlineObjects]): an object with distinct names that has the tag-key
    member holding a string, the payload-key member, and a further member,
    is refused with "found both inline and nested values"; the unmarshal
    hook reports it as the failure to decode the wrapper, an ambiguous
    payload shape. *)
Theorem custom_wrapper_rejects_payload_with_siblings
    (b : CustomValueWrapper) (ms : list (string * json)) (dvs : string) (nv : json)
    (k : string) (v : json)
    (U : json → T data → M data (T data)) (ptr : T data) (mg : bool) (h : gmap loc data) :
  let w := Wrap b "" None in
  NoDup (names ms) →
  (discriminatorKey w, JStr dvs) ∈ ms →
  (nestedValueKey w, nv) ∈ ms →
  (k, v) ∈ ms →
  discriminatorKey w ≠ nestedValueKey w →
  k ≠ discriminatorKey w →
  k ≠ nestedValueKey w →
  UnmarshalJSONV2 (marshalAny host) w (JObj ms) (jsonopts host) = Err ErrBothInlineAndNested
  ∧ unmarshalFunc host opts (customConfig b) U (JObj ms) ptr (Build_World mg false h)
    = (Err (ErrFailedToDecodeWrapper ErrBothInlineAndNested), Build_World mg false h)
  ∧ category (ErrFailedToDecodeWrapper ErrBothInlineAndNested) = AmbiguousPayloadShape.
Proof.
  intros w Hnd Hd Hn Hk Hdn Hkd Hkn.
  pose proof (UnmarshalJSONV2_ambiguous (marshalAny host) w (jsonopts host)
                ms dvs nv k v Hnd Hd Hn Hk Hdn Hkd Hkn) as Hu.
  split; [exact Hu|]. split; [|reflexivity].
  apply unmarshalFunc_wrapper_error.
  change (wrapFunc (customConfig (data:=data) b) "" None) with (CustomKey w).
  cbn [decodeWrapped]. by rewrite Hu.
Qed.


(** C6 (amended).  A [CustomValueWrapper] with an empty [DiscriminatorKey]
    is not refused: [Wrap] and [Empty] put the default ["_type"] in its
    place, so no wrapper they make has an empty tag key.
    [customKeyWrappedType.MarshalJSONV2] refuses a wrapper whose tag key is
    empty with "custom discriminator key is empty", a configuration error,
    before it writes any token. *)
Theorem empty_discriminator_key_defaults_or_is_refused
    (b : CustomValueWrapper) (typ : string) (v : Value)
    (w : customKeyWrappedType) (o : RangeOracle) (jo : Options) (enc : Encoder) :
  DiscriminatorKey b = "" →
  discriminatorKey w = "" →
  discriminatorKey (Wrap b typ v) = "_type"
  ∧ discriminatorKey (Empty b) = "_type"
  ∧ (∀ b' typ' v', discriminatorKey (Wrap b' typ' v') ≠ "")
  ∧ MarshalJSONV2 o w jo enc = (Err ErrEmptyDiscriminatorKey, enc)
  ∧ category ErrEmptyDiscriminatorKey = ConfigurationError.
Proof.
  intros Hb Hw.
  split; [|split; [|split; [|split]]].
  - unfold Wrap. rewrite Hb. by destruct (_ && _).
  - unfold Empty. by rewrite Hb.
  - intros b' typ' v'. unfold Wrap, keyOr.
    destruct (_ && _); cbn [discriminatorKey]; by destruct (decide (DiscriminatorKey b' = "")).
  - unfold MarshalJSONV2. by rewrite decide_True.
  - reflexivity.
Qed.

End ShapeClaims.

Section Ordering.

Lemma string_compare_le_trans s1 :
  ∀ s2 s3,
    String.compare s1 s2 ≠ Gt → String.compare s2 s3 ≠ Gt → String.compare s1 s3 ≠ Gt.
Proof.
  induction s1 as [|c1 s1 IH]; intros [|c2 s2] [|c3 s3]; simpl; try done.
  unfold Ascii.compare.
  destruct (N.compare_spec (N_of_ascii c1) (N_of_ascii c2)) as [H12|H12|H12];
    destruct (N.compare_spec (N_of_ascii c2) (N_of_ascii c3)) as [H23|H23|H23];
    destruct (N.compare_spec (N_of_ascii c1) (N_of_ascii c3)) as [H13|H13|H13];
    try done; try lia.
  apply IH.
Qed.

Lemma leb_not_gt s1 s2 : String.leb s1 s2 = true ↔ String.compare s1 s2 ≠ Gt.
Proof. unfold String.leb. destruct (String.compare s1 s2); split; done. Qed.

#[local] Instance strLe_trans : Transitive strLe.
Proof. intros a b c. unfold strLe. rewrite !leb_not_gt. apply string_compare_le_trans. Qed.

#[local] Instance strLe_total : Total strLe.
Proof. intros a b. apply String.leb_total. Qed.

Lemma sortStrings_sorted keys : StronglySorted strLe (sortStrings keys).
Proof. apply StronglySorted_merge_sort; apply _. Qed.

Lemma sortStrings_perm keys : sortStrings keys ≡ₚ keys.
Proof. apply merge_sort_Permutation. Qed.

Lemma membersInOrder_names m keys : names (membersInOrder m keys) = keys.
Proof.
  unfold names, membersInOrder.
  induction keys as [|k rest IH]; [done|]. cbn [fmap list_fmap fst]. by rewrite IH.
Qed.

Lemma membersInOrder_map_to_list (m : gmap string json) :
  membersInOrder m (map_to_list m).*1 = map_to_list m.
Proof.
  unfold membersInOrder. rewrite <- list_fmap_compose.
  rewrite <- (list_fmap_id (map_to_list m)) at 2.
  apply list_fmap_ext. intros i [k v] Hl. simpl.
  apply list_elem_of_lookup_2, elem_of_map_to_list in Hl. by rewrite Hl.
Qed.

Lemma membersInOrder_perm (m : gmap string json) keys :
  keys ≡ₚ (map_to_list m).*1 → membersInOrder m keys ≡ₚ map_to_list m.
Proof.
  intros Hp. rewrite <- membersInOrder_map_to_list.
  unfold membersInOrder. by rewrite Hp.
Qed.

Lemma lookups_membersInOrder (m : gmap string json) keys :
  (∀ k, k ∈ keys → is_Some (m !! k)) →
  (λ k, (k, m !! k)) <$> keys
  = (λ kv : string * json, (kv.1, Some kv.2)) <$> membersInOrder m keys.
Proof.
  intros Hall. unfold membersInOrder. rewrite <- list_fmap_compose.
  apply list_fmap_ext. intros i k Hl. simpl.
  destruct (Hall k) as [v Hv]; [by eapply list_elem_of_lookup_2|]. by rewrite Hv.
Qed.

(** Writing members whose names the object does not have yet. *)
Lemma writeInlineMembers_fresh (kvs : list (string * json)) :
  ∀ acc,
    NoDup (names acc ++ names kvs) →
    writeInlineMembers ((λ kv : string * json, (kv.1, Some kv.2)) <$> kvs) (InObject acc None)
    = (Ok tt, InObject (acc ++ kvs) None).
Proof.
  induction kvs as [|[k v] rest IH]; intros acc Hnd.
  - simpl. by rewrite app_nil_r.
  - cbn [fmap list_fmap writeInlineMembers fst snd].
    unfold bind at 1. unfold orWrap at 1. cbn [WriteToken writeString].
    rewrite decide_False; last first.
    { apply NoDup_app in Hnd as (_ & Hdisj & _). intros Hin. apply (Hdisj k Hin). left. }
    unfold bind at 1. unfold orWrap at 1. cbn [WriteValue].
    rewrite (IH (acc ++ [(k, v)])%list).
    + by rewrite <- app_assoc.
    + unfold names in *. rewrite fmap_app, <- app_assoc. exact Hnd.
Qed.

End Ordering.

Section OrderingClaims.

Lemma bind_orWrap_lift_Ok {S A B : Type} (a : A) (wrap : error → error) (k : A → St S B) :
  bind (orWrap (lift (Ok a)) wrap) k = k a.
Proof. reflexivity. Qed.

(** C10 (amended).  [CustomValueWrapper] with [InlineObjects], wrapping an
    object payload whose names are distinct and differ from the tag key:
    the output is the object that starts with the tag member and continues
    with the members of the payload, each exactly once; with
    [json.Deterministic(true)] their names are in lexicographic order. *)
Theorem inline_members_sorted_when_deterministic
    (o : RangeOracle) (b : CustomValueWrapper) (typ : string)
    (ms : list (string * json)) (jo : Options) :
  let w := Wrap b typ (Some (JObj ms)) in
  InlineObjects b = true →
  NoDup (names ms) →
  discriminatorKey w ∉ names ms →
  ∃ out,
    written (MarshalJSONV2 o w jo Idle) = Ok (JObj ((discriminatorKey w, JStr typ) :: out))
    ∧ out ≡ₚ ms
    ∧ (Deterministic jo = Some true → StronglySorted strLe (names out)).
Proof.
  intros w Hinl Hnd Hfresh. subst w. revert Hfresh.
  unfold Wrap. rewrite Hinl. cbn [ValueKind kindOf].
  rewrite bool_decide_eq_true_2 by done. cbn [andb discriminatorKey].
  set (dk := keyOr defaultTypeDiscriminatorKey (DiscriminatorKey b)).
  intros Hfresh.
  assert (dk ≠ "") as Hdk.
  { unfold dk, keyOr. by destruct (decide (DiscriminatorKey b = "")). }
  set (m := list_to_map ms : gmap string json).
  assert (map_to_list m ≡ₚ ms) as Hm by (by apply map_to_list_to_map).
  assert (∀ kvs : list (string * json),
            kvs ≡ₚ ms →
            written
              ((run writeInlineMembers ((λ kv : string * json, (kv.1, Some kv.2)) <$> kvs);
                orWrap (WriteToken ObjectEnd) (ErrWriteToken "object end token"))
                 (InObject [(dk, JStr typ)] None))
            = Ok (JObj ((dk, JStr typ) :: kvs))) as Hwrite.
  { intros kvs Hp. unfold bind.
    rewrite (writeInlineMembers_fresh kvs [(dk, JStr typ)]); [reflexivity|].
    cbn. apply NoDup_cons. split.
    - unfold names in *. by rewrite Hp.
    - unfold names in *. by rewrite Hp. }
  unfold MarshalJSONV2.
  cbn [discriminatorKey discriminatorValue nestedValue inlineValue nestedValueKey].
  rewrite decide_False by done.
  cbn [nonEmpty andb default].
  change (id (JObj ms)) with (JObj ms).
  rewrite decodeMap_object by done. fold m. rewrite bind_orWrap_lift_Ok.
  destruct (Deterministic jo) as [[|]|] eqn:Hdet;
    unfold GetDeterministic; rewrite Hdet.
  - exists (membersInOrder m (sortStrings (rangeOf o m).*1)).
    assert (sortStrings (rangeOf o m).*1 ≡ₚ (map_to_list m).*1) as Hkeys.
    { rewrite sortStrings_perm. by rewrite (rangeOf_perm o). }
    assert (membersInOrder m (sortStrings (rangeOf o m).*1) ≡ₚ ms) as Hperm.
    { rewrite <- Hm. by apply membersInOrder_perm. }
    split; [|split].
    + rewrite lookups_membersInOrder; last first.
      { intros k Hk. rewrite Hkeys in Hk.
        apply list_elem_of_fmap in Hk as [[k' v'] [-> Hin]].
        apply elem_of_map_to_list in Hin. by exists v'. }
      rewrite <- (Hwrite _ Hperm). reflexivity.
    + exact Hperm.
    + intros _. rewrite membersInOrder_names. apply sortStrings_sorted.
  - exists (rangeOf o m).
    assert (rangeOf o m ≡ₚ ms) as Hperm by (by rewrite (rangeOf_perm o)).
    split; [|split]; [| exact Hperm | done].
    rewrite <- (Hwrite _ Hperm). reflexivity.
  - exists (rangeOf o m).
    assert (rangeOf o m ≡ₚ ms) as Hperm by (by rewrite (rangeOf_perm o)).
    split; [|split]; [| exact Hperm | done].
    rewrite <- (Hwrite _ Hperm). reflexivity.
Qed.

End OrderingClaims.

(** * The package's examples, and the claims at concrete inputs *)

(** The entries of a concrete registry, one by one. *)
Ltac registry_cases H :=
  apply elem_of_map_to_list in H;
  match type of H with
  | _ ∈ map_to_list ?m =>
      let l := eval vm_compute in (map_to_list m) in
      change (map_to_list m) with l in H
  end;
  repeat (apply elem_of_cons in H as [H|H]; [injection H as -> ->|]);
  try (by apply elem_of_nil in H).

(** The output of [Example] in example_test.go. *)
Example example_marshaled_json :
  Marshal testHost stringerOptions None 9 helloWorld world0
  = (Ok (JObj
       [("_type", JStr "join");
        ("_value", JObj
           [("a", JObj
               [("_type", JStr "join");
                ("_value", JObj
                   [("a", JObj [("_type", JStr "literal"); ("_value", JStr "Hello")]);
                    ("b", JObj [("_type", JStr "literal"); ("_value", JStr "world")]);
                    ("separator", JStr " ")])]);
            ("b", JObj [("_type", JStr "exclamation"); ("_value", JNum "2")])])]),
     world0).
Proof. vm_compute. reflexivity. Qed.

(** The output of [ExampleCustomValueWrapper]. *)
Example example_custom_value_wrapper :
  Marshal testHost stringerOptions (customConfig dollarWrapper) 9 helloWorld world0
  = (Ok (JObj
       [("$type", JStr "join");
        ("a", JObj
           [("$type", JStr "join");
            ("a", JObj [("$type", JStr "literal"); ("$value", JStr "Hello")]);
            ("b", JObj [("$type", JStr "literal"); ("$value", JStr "world")]);
            ("separator", JStr " ")]);
        ("b", JObj [("$type", JStr "exclamation"); ("$value", JNum "2")])]),
     world0).
Proof. vm_compute. reflexivity. Qed.

(** The output of [ExampleConfig_replaceMissingTypeFunc]: the replacement
    sees the pointer that the host hands to the hook. *)
Example example_replace_missing_type :
  Marshal testHost stringerOptionsWithoutLiteral missingConfig 9 helloWorld world0
  = (Ok (JObj
       [("_type", JStr "join");
        ("_value", JObj
           [("a", JObj
               [("_type", JStr "join");
                ("_value", JObj
                   [("a", JObj [("_type", JStr "MISSING_*oneof_test.LiteralStringer");
                                ("_value", JStr "Hello")]);
                    ("b", JObj [("_type", JStr "MISSING_*oneof_test.LiteralStringer");
                                ("_value", JStr "world")]);
                    ("separator", JStr " ")])]);
            ("b", JObj [("_type", JStr "exclamation"); ("_value", JNum "2")])])]),
     world0).
Proof. vm_compute. reflexivity. Qed.

(** [Test_UnmarshalEmptyObject]: the registered pointer comes back, and it
    points to the zero [url.URL]. *)
Example test_unmarshal_empty_object :
  Unmarshal testHost urlOptions None 3 (JObj [("_type", JStr "url.URL")]) Nil urlWorld
  = (Ok (Ref "url.URL" 0), urlWorld)
  ∧ heap urlWorld !! 0 = Some (URL "" "").
Proof. split; vm_compute; reflexivity. Qed.

(** C3 (the code at the failing input).  With [&url.URL{}] registered, two
    decodes in a row both return the registered pointer; the first writes
    the registered cell, and the second writes it again, so that what the
    first decode returned has changed under its caller. *)
Theorem pointer_option_is_shared_by_decodes :
  ∃ w1 w2,
    Unmarshal testHost urlOptions None 3
      (JObj [("_type", JStr "url.URL"); ("_value", JObj [("Scheme", JStr "https")])])
      Nil urlWorld
    = (Ok (Ref "url.URL" 0), w1)
    ∧ urlOptions !! "url.URL" = Some (Ref "url.URL" 0)
    ∧ heap urlWorld !! 0 = Some (URL "" "")
    ∧ heap w1 !! 0 = Some (URL "https" "")
    ∧ Unmarshal testHost urlOptions None 3
        (JObj [("_type", JStr "url.URL"); ("_value", JObj [("Host", JStr "example.com")])])
        Nil w1
      = (Ok (Ref "url.URL" 0), w2)
    ∧ heap w2 !! 0 = Some (URL "https" "example.com").
Proof.
  eexists _, _. split; [vm_compute; reflexivity|].
  repeat split; vm_compute; reflexivity.
Qed.

(** C1 (the code at the failing input).  A variant registered under the tag
    [""]: [discriminatorValueFor] takes the key it has found for its own
    sign of "not found", so marshaling an instance fails with
    [ErrUnknownGoType], under [WrapNested] and under [WrapInline] alike,
    although the type of the instance is an option of the registry.  The
    unmarshal hook accepts the tag [""]: the wire form that marshaling
    should have produced decodes to the instance. *)
Theorem round_trip_fails_for_empty_tag :
  emptyTagOptions !! "" = Some (Plain (LiteralStringer ""))
  ∧ discriminatorValueFor testHost (castTo (Plain (LiteralStringer "a"))) emptyTagOptions
    = Ok ("", false)
  ∧ Marshal testHost emptyTagOptions None 5 (Plain (LiteralStringer "a")) world0
    = (Err (ErrUnknownGoType "*oneof_test.LiteralStringer"), world0)
  ∧ Marshal testHost emptyTagOptions inlineConfig 5 (Plain (LiteralStringer "a")) world0
    = (Err (ErrUnknownGoType "*oneof_test.LiteralStringer"), world0)
  ∧ Unmarshal testHost emptyTagOptions None 3
      (JObj [("_type", JStr ""); ("_value", JStr "a")]) Nil world0
    = (Ok (Plain (LiteralStringer "a")), world0).
Proof. repeat split; vm_compute; reflexivity. Qed.

(** C9 (the code at the failing input).  A variant registered under the tag
    [""] whose instance the host encodes to the empty object: marshaling
    does not give the object with the single member ["_type": ""], it
    fails with [ErrUnknownGoType], for the same reason.  The unmarshal hook
    accepts that object and gives the registered option. *)
Theorem empty_payload_fails_for_empty_tag :
  emptyTagJoinOptions !! "" = Some (Plain (JoinStringer Nil Nil ""))
  ∧ encodeDefault testHost (Marshal testHost emptyTagJoinOptions None 3)
      (Plain (JoinStringer Nil Nil "")) world0
    = (Ok (JObj []), world0)
  ∧ Marshal testHost emptyTagJoinOptions None 5 (Plain (JoinStringer Nil Nil "")) world0
    = (Err (ErrUnknownGoType "*oneof_test.JoinStringer"), world0)
  ∧ Unmarshal testHost emptyTagJoinOptions None 3 (JObj [("_type", JStr "")]) Nil world0
    = (Ok (Plain (JoinStringer Nil Nil "")), world0).
Proof. repeat split; vm_compute; reflexivity. Qed.

(** C2, counterexample: entered with the guard clear on a
    [*jsontext.Value], the marshal hook passes through. *)
Lemma guard_clear_hook_passes_through_on_raw :
  marshalSkipNext world0 = false
  ∧ marshalFunc testHost stringerOptions None
      (Marshal testHost stringerOptions None 3)
      (λ w, hostMarshal testHost stringerOptions None 3 (OfWrapped w))
      (Raw (Some (JNum "5"))) world0
    = (Ok SkipFunc, world0).
Proof. split; reflexivity. Qed.

(** C8, counterexample: entered with the guard set on a [*jsontext.Value],
    the marshal hook clears the guard; and the unmarshal hook, entered with
    the guard clear for a destination that holds a [*jsontext.Value],
    intercepts. *)
Lemma raw_value_consumes_guard :
  marshalFunc testHost stringerOptions None
    (Marshal testHost stringerOptions None 3)
    (λ w, hostMarshal testHost stringerOptions None 3 (OfWrapped w))
    (Raw (Some (JNum "5")))
    {| marshalSkipNext := true; unmarshalSkipNext := false; heap := ∅ |}
  = (Ok SkipFunc, {| marshalSkipNext := false; unmarshalSkipNext := false; heap := ∅ |})
  ∧ unmarshalFunc testHost stringerOptions None
      (Unmarshal testHost stringerOptions None 3)
      (JObj [("_type", JStr "exclamation"); ("_value", JNum "2")])
      (Raw (Some (JNum "5"))) world0
    = (Ok (Handled (Plain (ExclamationPointsStringer 2))), world0).
Proof. split; vm_compute; reflexivity. Qed.

(** C4, counterexample: under [WrapInline] the object of the claim's
    example, with a registered tag, is decoded without error; the member
    next to ["_value"] is dropped. *)
Lemma inline_wrapper_accepts_payload_with_siblings :
  Unmarshal testHost stringerOptions inlineConfig 3
    (JObj [("_type", JStr "exclamation"); ("_value", JNum "1"); ("extra", JNum "2")])
    Nil world0
  = (Ok (Plain (ExclamationPointsStringer 1)), world0).
Proof. vm_compute. reflexivity. Qed.


(** C6, counterexample: a [CustomValueWrapper] with an empty
    [DiscriminatorKey] encodes, under the key ["_type"]. *)
Lemma empty_discriminator_key_encodes :
  DiscriminatorKey zeroWrapper = ""
  ∧ Marshal testHost stringerOptions (customConfig zeroWrapper) 5
      (Plain (ExclamationPointsStringer 2)) world0
    = (Ok (JObj [("_type", JStr "exclamation"); ("_value", JNum "2")]), world0).
Proof. split; vm_compute; reflexivity. Qed.

Lemma exclamation_only_option :
  onlyOptionOfType testHost stringerOptions "exclamation"
    (Named "oneof_test.ExclamationPointsStringer").
Proof.
  split.
  - eexists. split; vm_compute; reflexivity.
  - intros k ot H Hne. registry_cases H; try done;
      (eexists; split; [vm_compute; reflexivity | discriminate]).
Defined.

Lemma join_only_option :
  onlyOptionOfType testHost stringerOptions "join" (Named "oneof_test.JoinStringer").
Proof.
  split.
  - eexists. split; vm_compute; reflexivity.
  - intros k ot H Hne. registry_cases H; try done;
      (eexists; split; [vm_compute; reflexivity | discriminate]).
Defined.

Lemma plain_not_raw (d : tdata) : ∀ v, Plain d ≠ Raw v.
Proof. intros v H. discriminate H. Defined.

(** The round trip at [ExclamationPointsStringer(2)] under [WrapNested],
    and at a [JoinStringer] with a nested [LiteralStringer] under
    [WrapInline]. *)
Lemma round_trip_witness :
  (Marshal testHost stringerOptions None 4 (Plain (ExclamationPointsStringer 2)) world0
   = (Ok (JObj [("_type", JStr "exclamation"); ("_value", JNum "2")]), world0)
   ∧ Unmarshal testHost stringerOptions None 3
       (JObj [("_type", JStr "exclamation"); ("_value", JNum "2")]) Nil world0
     = (Ok (Plain (ExclamationPointsStringer 2)), world0))
  ∧ (Marshal testHost stringerOptions inlineConfig 6
       (Plain (JoinStringer (Plain (LiteralStringer "a")) Nil "-")) world0
     = (Ok (JObj [("_type", JStr "join");
                  ("a", JObj [("_type", JStr "literal"); ("_value", JStr "a")]);
                  ("separator", JStr "-")]), world0)
     ∧ Unmarshal testHost stringerOptions inlineConfig 5
         (JObj [("_type", JStr "join");
                ("a", JObj [("_type", JStr "literal"); ("_value", JStr "a")]);
                ("separator", JStr "-")]) Nil world0
       = (Ok (Plain (JoinStringer (Plain (LiteralStringer "a")) Nil "-")), world0)).
Proof.
  split.
  - refine (proj1 (marshal_then_unmarshal_round_trip testHost stringerOptions None
              1 1 (Plain (ExclamationPointsStringer 2))
              (Named "oneof_test.ExclamationPointsStringer") "exclamation"
              (Plain (ExclamationPointsStringer 0)) (JNum "2") world0 world0
              false false ∅ ∅ Nil
              (plain_not_raw _) _ _ exclamation_only_option _ _ _) _);
      try (vm_compute; reflexivity).
    discriminate.
  - refine (proj2 (marshal_then_unmarshal_round_trip testHost stringerOptions inlineConfig
              3 3 (Plain (JoinStringer (Plain (LiteralStringer "a")) Nil "-"))
              (Named "oneof_test.JoinStringer") "join"
              (Plain (JoinStringer Nil Nil ""))
              (JObj [("a", JObj [("_type", JStr "literal"); ("_value", JStr "a")]);
                     ("separator", JStr "-")])
              world0 world0 false false ∅ ∅ Nil
              (plain_not_raw _) _ _ join_only_option _ _ _) _ _);
      try (vm_compute; reflexivity).
    + discriminate.
    + unfold inlineSafe.
      split; [|split]; apply (bool_decide_unpack _); vm_compute; exact I.
Defined.

(** The omission at the zero [JoinStringer], whose encoding is the empty
    object. *)
Lemma empty_object_payload_witness :
  Marshal testHost stringerOptions None 4 (Plain (JoinStringer Nil Nil "")) world0
  = (Ok (JObj [("_type", JStr "join")]), world0)
  ∧ (∀ U, unmarshalFunc testHost stringerOptions None U (JObj [("_type", JStr "join")])
            Nil world0
          = (Ok (Handled (Plain (JoinStringer Nil Nil ""))), world0))
  ∧ Unmarshal testHost stringerOptions None 1 (JObj [("_type", JStr "join")]) Nil world0
    = (Ok (Plain (JoinStringer Nil Nil "")), world0).
Proof.
  refine (empty_object_payload_is_omitted testHost stringerOptions None
            1 0 (Plain (JoinStringer Nil Nil "")) (Named "oneof_test.JoinStringer") "join"
            (Plain (JoinStringer Nil Nil "")) world0 false false ∅ ∅ Nil
            (plain_not_raw _) _ _ join_only_option _ _ _);
    try (vm_compute; reflexivity).
  discriminate.
Defined.

Lemma no_literal_option :
  noOptionOfType testHost stringerOptionsWithoutLiteral (Named "oneof_test.LiteralStringer").
Proof.
  intros k ot H. registry_cases H;
    (eexists; split; [vm_compute; reflexivity | discriminate]).
Defined.

(** C7 at [LiteralStringer("Hello")] with the registry of
    [ExampleConfig_replaceMissingTypeFunc]: without replacement the error,
    with it the wrapper under the replacement tag, as in the output of that
    example. *)
Lemma unregistered_type_witness :
  Marshal testHost stringerOptionsWithoutLiteral None 2 (Plain (LiteralStringer "Hello")) world0
  = (Err (ErrUnknownGoType "*oneof_test.LiteralStringer"), world0)
  ∧ Marshal testHost stringerOptionsWithoutLiteral missingConfig 4
      (Plain (LiteralStringer "Hello")) world0
    = (Ok (JObj [("_type", JStr "MISSING_*oneof_test.LiteralStringer");
                 ("_value", JStr "Hello")]), world0)
  ∧ stringerOptionsWithoutLiteral !! "MISSING_*oneof_test.LiteralStringer" = None.
Proof.
  split; [|split].
  - refine (proj1 (unregistered_type_fails_or_uses_fallback testHost
              stringerOptionsWithoutLiteral None 1 (Plain (LiteralStringer "Hello"))
              (Named "oneof_test.LiteralStringer") false ∅
              (plain_not_raw _) _ no_literal_option) _); reflexivity.
  - refine (proj2 (proj1 (proj2 (unregistered_type_fails_or_uses_fallback testHost
              stringerOptionsWithoutLiteral missingConfig 1 (Plain (LiteralStringer "Hello"))
              (Named "oneof_test.LiteralStringer") false ∅
              (plain_not_raw _) _ no_literal_option))
              (λ v, "MISSING_" ++ fmtT testHost v) (JStr "Hello") world0 _ _) _);
      reflexivity.
  - vm_compute. reflexivity.
Defined.

(** C7, counterexample: a [*jsontext.Value], whose type no option has, is
    neither refused nor wrapped: without [ReplaceMissingTypeFunc] and with
    it, the hook passes through and the raw value goes out as it is. *)
Lemma raw_value_is_neither_refused_nor_wrapped :
  strippedType testHost (Raw (Some (JNum "5"))) = Ok (Named "jsontext.Value")
  ∧ noOptionOfType testHost stringerOptionsWithoutLiteral (Named "jsontext.Value")
  ∧ Marshal testHost stringerOptionsWithoutLiteral None 3 (Raw (Some (JNum "5"))) world0
    = (Ok (JNum "5"), world0)
  ∧ Marshal testHost stringerOptionsWithoutLiteral missingConfig 3
      (Raw (Some (JNum "5"))) world0
    = (Ok (JNum "5"), world0).
Proof.
  split; [reflexivity|]. split.
  - intros k ot H. registry_cases H;
      (eexists; split; [vm_compute; reflexivity | discriminate]).
  - split; vm_compute; reflexivity.
Qed.

(** C10, counterexample: a payload with a member named like the tag key,
    and a payload that repeats a name, are not written: the encoder refuses
    the second use of the tag key after the tag member has gone out, and
    the host refuses to read the repeated name into the map. *)
Lemma inline_member_named_like_tag_is_refused :
  InlineObjects dollarWrapper = true
  ∧ MarshalJSONV2 insertionOrder
      (Wrap dollarWrapper "point" (Some (JObj [("$type", JStr "circle"); ("x", JNum "1")])))
      {| Deterministic := Some true |} Idle
    = (Err (ErrWriteToken "inline key token" HostDuplicateName),
       InObject [("$type", JStr "point")] None)
  ∧ MarshalJSONV2 insertionOrder
      (Wrap dollarWrapper "point" (Some (JObj [("x", JNum "1"); ("x", JNum "2")])))
      {| Deterministic := Some true |} Idle
    = (Err (ErrReencode "unmarshal inline value to map[string]jsontext.Value"
              HostDuplicateName),
       InObject [("$type", JStr "point")] None).
Proof. repeat split; vm_compute; reflexivity. Qed.

(** C2 at [ExclamationPointsStringer(2)] and its wire form: the nested
    requests of one encode and of one decode pass through once. *)
Lemma guard_witness :
  Marshal testHost stringerOptions None 2 (Plain (ExclamationPointsStringer 2))
    {| marshalSkipNext := true; unmarshalSkipNext := false; heap := ∅ |}
  = (Ok (JNum "2"), world0)
  ∧ Unmarshal testHost stringerOptions None 2 (JNum "2") (Plain (ExclamationPointsStringer 0))
      {| marshalSkipNext := false; unmarshalSkipNext := true; heap := ∅ |}
    = (Ok (Plain (ExclamationPointsStringer 2)), world0).
Proof.
  pose proof (guard_suppresses_one_interception testHost stringerOptions None
                1 (Plain (ExclamationPointsStringer 2)) "exclamation"
                (JObj [("_type", JStr "exclamation"); ("_value", JNum "2")])
                (AlwaysNest {| anTyp := "exclamation"; anNestedValue := Some (JNum "2") |})
                (Plain (ExclamationPointsStringer 0)) (JNum "2") false false ∅
                (plain_not_raw _)
                ltac:(reflexivity) ltac:(vm_compute; reflexivity)
                ltac:(vm_compute; reflexivity) ltac:(vm_compute; reflexivity)
                ltac:(reflexivity))
    as (_ & _ & _ & _ & HM & HU & _).
  split.
  - etransitivity; [exact HM | vm_compute; reflexivity].
  - etransitivity; [exact HU | vm_compute; reflexivity].
Defined.

(** C4 at the claim's own example, under [ExampleCustomValueWrapper]'s keys. *)
Lemma custom_wrapper_ambiguity_witness :
  unmarshalFunc testHost stringerOptions (customConfig dollarWrapper)
    (Unmarshal testHost stringerOptions (customConfig dollarWrapper) 3)
    (JObj [("$type", JStr "x"); ("$value", JNum "1"); ("extra", JNum "2")]) Nil world0
  = (Err (ErrFailedToDecodeWrapper ErrBothInlineAndNested), world0).
Proof.
  refine (proj1 (proj2 (custom_wrapper_rejects_payload_with_siblings testHost stringerOptions
            dollarWrapper
            [("$type", JStr "x"); ("$value", JNum "1"); ("extra", JNum "2")]
            "x" (JNum "1") "extra" (JNum "2")
            (Unmarshal testHost stringerOptions (customConfig dollarWrapper) 3)
            Nil false ∅ _ _ _ _ _ _ _)));
    try (apply (bool_decide_unpack _); vm_compute; exact I); try discriminate;
    cbn; eauto using list_elem_of_here, list_elem_of_further.
Defined.


(** C6 at the wrapper with all fields empty, and at the zero
    [customKeyWrappedType]. *)
Lemma empty_discriminator_key_witness :
  discriminatorKey (Wrap zeroWrapper "exclamation" (Some (JNum "2"))) = "_type"
  ∧ MarshalJSONV2 insertionOrder
      {| discriminatorKey := ""; discriminatorValue := "exclamation"; nestedValueKey := "";
         nestedValue := Some (JNum "2"); inlineValue := None |}
      {| Deterministic := None |} Idle
    = (Err ErrEmptyDiscriminatorKey, Idle).
Proof.
  pose proof (empty_discriminator_key_defaults_or_is_refused zeroWrapper "exclamation"
                (Some (JNum "2"))
                {| discriminatorKey := ""; discriminatorValue := "exclamation";
                   nestedValueKey := ""; nestedValue := Some (JNum "2"); inlineValue := None |}
                insertionOrder {| Deterministic := None |} Idle eq_refl eq_refl)
    as (H1 & _ & _ & H4 & _).
  exact (conj H1 H4).
Defined.

(** C10 at a payload whose members are out of order. *)
Lemma inline_members_sorted_witness :
  ∃ out,
    written (MarshalJSONV2 insertionOrder
               (Wrap dollarWrapper "point" (Some (JObj [("y", JNum "2"); ("x", JNum "1")])))
               {| Deterministic := Some true |} Idle)
    = Ok (JObj (("$type", JStr "point") :: out))
    ∧ out ≡ₚ [("y", JNum "2"); ("x", JNum "1")]
    ∧ StronglySorted strLe (names out).
Proof.
  destruct (inline_members_sorted_when_deterministic insertionOrder dollarWrapper "point"
              [("y", JNum "2"); ("x", JNum "1")] {| Deterministic := Some true |}
              eq_refl
              ltac:(apply (bool_decide_unpack _); vm_compute; exact I)
              ltac:(apply (bool_decide_unpack _); vm_compute; exact I))
    as (out & Hout & Hperm & Hsorted).
  exists out. split; [exact Hout|]. split; [exact Hperm|]. exact (Hsorted eq_refl).
Defined.

(** The inline merge example of the specification, with and without
    [json.Deterministic]. *)
Example inline_point_sorted :
  written (MarshalJSONV2 insertionOrder
             (Wrap dollarWrapper "point" (Some (JObj [("y", JNum "2"); ("x", JNum "1")])))
             {| Deterministic := Some true |} Idle)
  = Ok (JObj [("$type", JStr "point"); ("x", JNum "1"); ("y", JNum "2")]).
Proof. vm_compute. reflexivity. Qed.

(** * Further properties of the package *)

Section TagResolution.
Context {data : Type} (host : Host data).
Variable opts : gmap string (T data).

Lemma firstMatch_found ty (entries : list (string * T data)) k :
  firstMatch host ty entries = Ok k →
  k ≠ "" →
  ∃ ot, (k, ot) ∈ entries ∧ strippedType host ot = Ok ty.
Proof.
  induction entries as [|[k' ot] rest IH]; intros Hf Hk; simpl in Hf.
  - congruence.
  - destruct (strippedType host ot) as [ty'|e] eqn:Hty; [|done].
    destruct (decide (ty' = ty)) as [->|Hne].
    + injection Hf as <-. exists ot. split; [left | done].
    + destruct (IH Hf Hk) as (ot' & Hin & Hot'). exists ot'. split; [by right | done].
Qed.

Lemma firstMatch_not_found ty (entries : list (string * T data)) :
  firstMatch host ty entries = Ok "" →
  "" ∉ entries.*1 →
  ∀ k ot, (k, ot) ∈ entries → ∃ ty', strippedType host ot = Ok ty' ∧ ty' ≠ ty.
Proof.
  induction entries as [|[k' ot'] rest IH]; intros Hf Hempty k ot Hin.
  - by apply elem_of_nil in Hin.
  - simpl in Hf, Hempty. apply not_elem_of_cons in Hempty as [Hk' Hempty].
    destruct (strippedType host ot') as [ty'|e] eqn:Hty; [|done].
    destruct (decide (ty' = ty)) as [->|Hne]; [congruence|].
    apply elem_of_cons in Hin as [Heq|Hin].
    + injection Heq as -> ->. by exists ty'.
    + by apply (IH Hf Hempty k ot).
Qed.

(** X1.  Whatever the iteration order: when [discriminatorValueFor] reports
    a key as found, the key is not empty, it is a key of the registry, and
    its option has the type of the value (one pointer level stripped on
    both sides). *)
Theorem discriminatorValueFor_found_is_registered (t : T data) (k : string) :
  discriminatorValueFor host t opts = Ok (k, true) →
  k ≠ ""
  ∧ ∃ ot ty, opts !! k = Some ot
             ∧ strippedType host ot = Ok ty
             ∧ strippedType host t = Ok ty.
Proof.
  unfold discriminatorValueFor. intros H.
  destruct (strippedType host t) as [ty|e] eqn:Ht; [|done].
  destruct (firstMatch host ty _) as [key|e] eqn:Hf; [|done].
  destruct (decide (key = "")) as [->|Hne]; [done|].
  injection H as <-. split; [done|].
  destruct (firstMatch_found ty _ key Hf Hne) as (ot & Hin & Hot).
  exists ot, ty. split; [|done].
  rewrite (rangeOf_perm (oracle host)) in Hin. by apply elem_of_map_to_list in Hin.
Qed.

(** X2.  When the empty string is not a key of the registry and
    [discriminatorValueFor] reports not found, no option of the registry has
    the type of the value. *)
Theorem discriminatorValueFor_not_found_is_complete (t : T data) (k : string) :
  opts !! "" = None →
  discriminatorValueFor host t opts = Ok (k, false) →
  k = ""
  ∧ ∃ ty, strippedType host t = Ok ty ∧ noOptionOfType host opts ty.
Proof.
  unfold discriminatorValueFor. intros Hempty H.
  destruct (strippedType host t) as [ty|e] eqn:Ht; [|done].
  destruct (firstMatch host ty _) as [key|e] eqn:Hf; [|done].
  destruct (decide (key = "")) as [->|Hne]; [|done].
  injection H as <-. split; [done|]. exists ty. split; [done|].
  intros k' ot Hl.
  apply (firstMatch_not_found ty (rangeOf (oracle host) opts) Hf) with (k := k').
  - intros Hin. apply list_elem_of_fmap in Hin as [[k0 o0] [Hk0 Hin]]. simpl in Hk0. subst k0.
    rewrite (rangeOf_perm (oracle host)) in Hin. apply elem_of_map_to_list in Hin. congruence.
  - rewrite (rangeOf_perm (oracle host)). by apply elem_of_map_to_list.
Qed.

(** X3.  The empty key doubles as the sign for not found: a value whose
    type is registered under the tag [""] only is reported as not found. *)
Theorem discriminatorValueFor_empty_key_is_not_found (t : T data) (ty : rtype) :
  strippedType host t = Ok ty →
  onlyOptionOfType host opts "" ty →
  discriminatorValueFor host t opts = Ok ("", false).
Proof.
  intros Ht [(proto & Hp & Hty) Hothers]. unfold discriminatorValueFor. rewrite Ht.
  rewrite (firstMatch_only host ty "").
  - by rewrite decide_True.
  - apply list_elem_of_fmap. exists ("", proto). split; [done|].
    rewrite (rangeOf_perm (oracle host)). by apply elem_of_map_to_list.
  - intros ot Hin.
    rewrite (rangeOf_perm (oracle host)) in Hin. apply elem_of_map_to_list in Hin.
    congruence.
  - intros k ot Hin Hne.
    rewrite (rangeOf_perm (oracle host)) in Hin. apply elem_of_map_to_list in Hin.
    by eapply Hothers.
Qed.

End TagResolution.

Section TagResolutionOrder.
Context {data : Type} (host : Host data).
Variable opts : gmap string (T data).

Lemma firstMatch_cases ty (entries : list (string * T data)) :
  (∀ k ot, (k, ot) ∈ entries → ∃ ty', strippedType host ot = Ok ty') →
  (∃ k ot, firstMatch host ty entries = Ok k
           ∧ (k, ot) ∈ entries ∧ strippedType host ot = Ok ty)
  ∨ (firstMatch host ty entries = Ok ""
     ∧ ∀ k ot, (k, ot) ∈ entries → ∃ ty', strippedType host ot = Ok ty' ∧ ty' ≠ ty).
Proof.
  induction entries as [|[k ot] rest IH]; intros Hnil.
  - right. split; [done|]. intros k ot Hin. by apply elem_of_nil in Hin.
  - simpl. destruct (Hnil k ot ltac:(left)) as [ty' Hty]. rewrite Hty.
    destruct (decide (ty' = ty)) as [->|Hne].
    + left. exists k, ot. split; [done|]. split; [left | done].
    + destruct IH as [(k' & ot' & Hf & Hin & Hot) | [Hf Hall]].
      * intros k' ot' Hin. apply (Hnil k' ot'). by right.
      * left. exists k', ot'. split; [done|]. split; [by right | done].
      * right. split; [done|]. intros k' ot' [Heq|Hin]%elem_of_cons.
        -- injection Heq as -> ->. by exists ty'.
        -- by apply (Hall k' ot').
Qed.

(** X4.  In a registry without nil options in which no two tags have
    options of one type, the result of [discriminatorValueFor] does not
    depend on the order in which the map is iterated. *)
Theorem discriminatorValueFor_order_independent (o1 o2 : RangeOracle) (t : T data) :
  distinctTypes host opts →
  discriminatorValueFor (withOracle host o1) t opts
  = discriminatorValueFor (withOracle host o2) t opts.
Proof.
  intros [Hnonnil Huniq]. unfold discriminatorValueFor.
  change (strippedType (withOracle host o1) t) with (strippedType host t).
  change (strippedType (withOracle host o2) t) with (strippedType host t).
  destruct (strippedType host t) as [ty|e]; [|done].
  change (firstMatch (withOracle host o1) ty) with (firstMatch host ty).
  change (firstMatch (withOracle host o2) ty) with (firstMatch host ty).
  cbn [oracle withOracle].
  assert (∀ o k ot, (k, ot) ∈ rangeOf o opts ↔ opts !! k = Some ot) as Hin.
  { intros o k ot. rewrite (rangeOf_perm o). apply elem_of_map_to_list. }
  destruct (firstMatch_cases ty (rangeOf o1 opts)) as [(k & ot & Hf & Hk & Hot) | [Hf Hall]].
  - intros k ot Hk. apply (Hnonnil k ot). by apply Hin in Hk.
  - rewrite Hf. apply Hin in Hk.
    rewrite (firstMatch_only host ty k (rangeOf o2 opts)); [done | | |].
    + apply list_elem_of_fmap. exists (k, ot). split; [done|]. by apply Hin.
    + intros ot' Hin'. apply Hin in Hin'. congruence.
    + intros k' ot' Hin' Hne. apply Hin in Hin'.
      destruct (Hnonnil k' ot' Hin') as [ty' Hty']. exists ty'. split; [done|].
      intros ->. apply Hne. by apply (Huniq k' k ot' ot ty).
  - rewrite Hf. rewrite (firstMatch_none host ty (rangeOf o2 opts)); [done|].
    intros k ot Hk. apply Hin in Hk. apply (Hall k ot). by apply Hin.
Qed.

End TagResolutionOrder.

Section PointerToVariant.
Context {data : Type} (host : Host data).
Variable opts : gmap string (T data).
Variable cfg : option (Config data).

(** X5.  A pointer to a value whose type is registered is marshaled exactly
    as the value it points to: same tag, same payload, same final world. *)
Theorem pointer_is_marshaled_as_its_value (d : data) (l : loc) (k : string) :
  discriminatorValueFor host (Plain d) opts = Ok (k, true) →
  ∀ (n : nat) (w : World data),
    heap w !! l = Some d →
    Marshal host opts cfg n (Ref (typeName host d) l) w
    = Marshal host opts cfg n (Plain d) w.
Proof.
  intros Hk n. induction n as [|n IH]; intros w Hl; [reflexivity|].
  assert (resolveDiscriminator host opts cfg (Ref (typeName host d) l) = Ok k) as HrR.
  { unfold resolveDiscriminator.
    change (discriminatorValueFor host (Ref (typeName host d) l) opts)
      with (discriminatorValueFor host (Plain d) opts). by rewrite Hk. }
  assert (resolveDiscriminator host opts cfg (Addr d) = Ok k) as HrP.
  { unfold resolveDiscriminator.
    change (discriminatorValueFor host (Addr d) opts)
      with (discriminatorValueFor host (Plain d) opts). by rewrite Hk. }
  assert (∀ w', heap w' !! l = Some d →
            encodeDefault host (Marshal host opts cfg n) (Ref (typeName host d) l) w'
            = encodeDefault host (Marshal host opts cfg n) (Plain d) w') as Henc.
  { intros w' Hl'. cbn [encodeDefault]. unfold bind, load. by rewrite Hl'. }
  assert (∀ w', Marshal host opts cfg n (Addr d) w' = Marshal host opts cfg n (Plain d) w')
    as Haddr.
  { intros w'. by destruct n. }
  rewrite !Marshal_unfold. cbn [marshalHookApplies castTo]. unfold bind.
  destruct w as [[|] ug h].
  - rewrite !marshalFunc_guard_set. by apply Henc.
  - rewrite (marshalFunc_intercept host opts cfg _ _ (Ref (typeName host d) l) k) by done.
    rewrite (marshalFunc_intercept host opts cfg _ _ (Addr d) k) by done.
    cbn [heap] in Hl. rewrite (IH (Build_World true ug h)) by exact Hl.
    rewrite Haddr.
    destruct (Marshal host opts cfg n (Plain d) _) as [[b|e] w']; [|reflexivity].
    destruct (hostMarshal host opts cfg n (OfWrapped _) w') as [[j|e] w'']; reflexivity.
Qed.

End PointerToVariant.

Section Wrappers.

(** X6.  Each of the package's wrap functions keeps what it is given:
    [Type] of the wrapper is the tag and [Value] is the payload, whatever
    the shape of the payload. *)
Theorem wrap_functions_keep_type_and_value (b : CustomValueWrapper) (typ : string) (v : Value) :
  (WrappedValue_Type (WrapNested typ v) = typ ∧ WrappedValue_Value (WrapNested typ v) = v)
  ∧ (WrappedValue_Type (WrapInline typ v) = typ ∧ WrappedValue_Value (WrapInline typ v) = v)
  ∧ (WrappedValue_Type (WrapCustom b typ v) = typ
     ∧ WrappedValue_Value (WrapCustom b typ v) = v).
Proof.
  split; [done|]. split.
  - unfold WrapInline. destruct (bool_decide (ValueKind v = KObject)); [done|].
    split; [done|]. by destruct v.
  - unfold WrapCustom, Wrap.
    destruct (bool_decide (ValueKind v = KObject) && InlineObjects b);
      (split; [done|]); cbn; by destruct v.
Qed.

Lemma wrappedOutcome_writes (c : St Encoder unit) (what : string) (k : St Encoder unit) enc :
  (∀ enc', wrappedOutcome (k enc').1) →
  wrappedOutcome ((run orWrap c (ErrWriteToken what); k) enc).1.
Proof.
  intros Hk. unfold bind, orWrap. destruct (c enc) as [[u|e] enc']; [apply Hk | exact I].
Qed.

Lemma wrappedOutcome_members kvs enc : wrappedOutcome (writeInlineMembers kvs enc).1.
Proof.
  revert enc. induction kvs as [|[k v] rest IH]; intros enc; [exact I|].
  cbn [writeInlineMembers]. apply wrappedOutcome_writes. intros enc'.
  apply wrappedOutcome_writes. apply IH.
Qed.

Lemma wrappedOutcome_seq (c k : St Encoder unit) enc :
  (∀ enc', wrappedOutcome (c enc').1) →
  (∀ enc', wrappedOutcome (k enc').1) →
  wrappedOutcome ((run c; k) enc).1.
Proof.
  intros Hc Hk. unfold bind. specialize (Hc enc).
  destruct (c enc) as [[u|e] enc']; [apply Hk | exact Hc].
Qed.

Lemma wrappedOutcome_last (c : St Encoder unit) (what : string) enc :
  wrappedOutcome (orWrap c (ErrWriteToken what) enc).1.
Proof. unfold orWrap. by destruct (c enc) as [[u|e] enc']. Qed.

(** X7.  [CustomValueWrapper.Wrap] fills exactly one of the two payload
    fields, and the inline one only with an object when [InlineObjects] is
    on.  So for a wrapper made by [Wrap], in any state of the encoder,
    [MarshalJSONV2] never fails with "custom discriminator key is empty" or
    "found both inline and nested values": it succeeds or reports a wrapped
    failure of the encoder or of the host. *)
Theorem wrap_fills_one_payload_field
    (b : CustomValueWrapper) (typ : string) (v : Value)
    (o : RangeOracle) (jo : Options) (enc : Encoder) :
  let w := Wrap b typ v in
  (nonEmpty (inlineValue w) && nonEmpty (nestedValue w) = false)
  ∧ (nonEmpty (inlineValue w) = true →
     ValueKind (inlineValue w) = KObject ∧ InlineObjects b = true)
  ∧ (inlineValue w = v ∨ nestedValue w = v)
  ∧ wrappedOutcome (MarshalJSONV2 o w jo enc).1.
Proof.
  intros w. subst w.
  assert (discriminatorKey (Wrap b typ v) ≠ "") as Hdk.
  { unfold Wrap, keyOr.
    destruct (_ && _); cbn [discriminatorKey];
      by destruct (decide (DiscriminatorKey b = "")). }
  assert (nonEmpty (inlineValue (Wrap b typ v)) && nonEmpty (nestedValue (Wrap b typ v))
          = false) as Hone.
  { unfold Wrap. destruct (bool_decide (ValueKind v = KObject) && InlineObjects b); cbn;
      [apply andb_false_r | done]. }
  split; [exact Hone|]. split; [|split].
  - unfold Wrap.
    destruct (bool_decide (ValueKind v = KObject)) eqn:Hk;
      destruct (InlineObjects b) eqn:Hb; cbn; intros Hne; try discriminate Hne.
    split; [by apply bool_decide_eq_true_1 in Hk | done].
  - unfold Wrap. destruct (bool_decide (ValueKind v = KObject) && InlineObjects b); cbn;
      [by left | by right].
  - unfold MarshalJSONV2. rewrite decide_False by exact Hdk. rewrite Hone.
    do 3 (apply wrappedOutcome_writes; intros ?).
    apply wrappedOutcome_seq; [|intros ?; apply wrappedOutcome_last].
    intros enc1. destruct (nonEmpty (inlineValue (Wrap b typ v))).
    + unfold bind, orWrap, lift.
      destruct (decodeMap _) as [m|e]; [|exact I].
      destruct (GetDeterministic jo) as [[|] [|]]; apply wrappedOutcome_members.
    + destruct (nonEmpty (nestedValue (Wrap b typ v))); [|exact I].
      apply wrappedOutcome_writes. intros ?. apply wrappedOutcome_last.
Qed.

(** X8.  A wrapper that holds both an inline and a nested value is refused
    with "found both inline and nested values", and only after the start of
    the object and the tag member have gone to the encoder. *)
Theorem both_payloads_refused_after_tag_is_written
    (w : customKeyWrappedType) (o : RangeOracle) (jo : Options) :
  discriminatorKey w ≠ "" →
  nonEmpty (inlineValue w) = true →
  nonEmpty (nestedValue w) = true →
  MarshalJSONV2 o w jo Idle
  = (Err ErrBothInlineAndNested,
     InObject [(discriminatorKey w, JStr (discriminatorValue w))] None).
Proof.
  intros Hdk Hi Hn. unfold MarshalJSONV2.
  rewrite decide_False by done. rewrite Hi, Hn. reflexivity.
Qed.

End Wrappers.

Section CustomWrapperCoding.
Variable o : RangeOracle.
Variable jo : Options.
Variable mA : Options → json → res json.

Lemma MarshalJSONV2_start (w : customKeyWrappedType) (k : St Encoder unit) :
  (run orWrap (WriteToken ObjectStart) (ErrWriteToken "object start token");
   run orWrap (WriteToken (TString (discriminatorKey w)))
              (ErrWriteToken "discriminator key token");
   run orWrap (WriteToken (TString (discriminatorValue w)))
              (ErrWriteToken "discriminator value token");
   k) Idle
  = k (InObject [(discriminatorKey w, JStr (discriminatorValue w))] None).
Proof.
  unfold bind at 1. unfold orWrap at 1. cbn [WriteToken].
  unfold bind at 1. unfold orWrap at 1. cbn [WriteToken writeString names fmap list_fmap].
  rewrite decide_False by (by intros ?%elem_of_nil).
  unfold bind at 1. unfold orWrap at 1. cbn [WriteToken writeString app].
  reflexivity.
Qed.

Lemma MarshalJSONV2_nested_member (w : customKeyWrappedType) (p : json) :
  discriminatorKey w ≠ "" →
  discriminatorKey w ≠ nestedValueKey w →
  inlineValue w = None →
  nestedValue w = Some p →
  written (MarshalJSONV2 o w jo Idle)
  = Ok (JObj [(discriminatorKey w, JStr (discriminatorValue w)); (nestedValueKey w, p)]).
Proof.
  intros Hdk Hne Hinl Hn. unfold MarshalJSONV2.
  rewrite decide_False by done. rewrite MarshalJSONV2_start, Hinl, Hn.
  cbn [nonEmpty andb]. unfold bind, orWrap.
  cbn [WriteToken writeString names fmap list_fmap fst].
  rewrite decide_False; [reflexivity|].
  intros Hin%list_elem_of_singleton. congruence.
Qed.

(** X9.  A wrapper with a nested value only is written as the object of the
    tag member and the payload member, also when the payload is null or
    empty (nothing is dropped, unlike under [WrapNested]); with no value at
    all, as the object of the tag member alone. *)
Theorem custom_nested_output (w : customKeyWrappedType) :
  discriminatorKey w ≠ "" →
  discriminatorKey w ≠ nestedValueKey w →
  inlineValue w = None →
  written (MarshalJSONV2 o w jo Idle)
  = Ok (JObj ((discriminatorKey w, JStr (discriminatorValue w))
              :: match nestedValue w with
                 | Some p => [(nestedValueKey w, p)]
                 | None => []
                 end)).
Proof.
  intros Hdk Hne Hinl. destruct (nestedValue w) as [p|] eqn:Hn.
  - by apply MarshalJSONV2_nested_member.
  - unfold MarshalJSONV2. rewrite decide_False by done.
    rewrite MarshalJSONV2_start, Hinl, Hn. reflexivity.
Qed.

(** X10.  When the tag key and the payload key are the same name, a wrapper
    with a nested value cannot be written: the encoder refuses the second
    use of the name. *)
Theorem custom_equal_keys_refused (w : customKeyWrappedType) (p : json) :
  discriminatorKey w ≠ "" →
  discriminatorKey w = nestedValueKey w →
  inlineValue w = None →
  nestedValue w = Some p →
  MarshalJSONV2 o w jo Idle
  = (Err (ErrWriteToken "nested value key token" HostDuplicateName),
     InObject [(discriminatorKey w, JStr (discriminatorValue w))] None).
Proof.
  intros Hdk Heq Hinl Hn. unfold MarshalJSONV2.
  rewrite decide_False by done. rewrite MarshalJSONV2_start, Hinl, Hn.
  cbn [nonEmpty andb]. unfold bind, orWrap.
  cbn [WriteToken writeString names fmap list_fmap fst].
  rewrite decide_True; [reflexivity|]. rewrite <- Heq. left.
Qed.

(** An object that has the tag member and nothing else is accepted, but
    the wrapper is left as it was: the tag it carried is not stored. *)
Lemma UnmarshalJSONV2_tag_only (w : customKeyWrappedType) (d : string) :
  UnmarshalJSONV2 mA w (JObj [(discriminatorKey w, JStr d)]) jo = Ok w.
Proof.
  unfold UnmarshalJSONV2. cbn [kindOf]. rewrite bool_decide_eq_true_2 by done. cbn [negb].
  rewrite decodeMap_object; last first.
  { cbn. apply NoDup_singleton. }
  cbn [list_to_map foldr uncurry fst snd].
  rewrite lookup_insert_eq. cbv zeta.
  rewrite delete_insert_eq, delete_empty, map_size_empty.
  by rewrite decide_True.
Qed.


End CustomWrapperCoding.

Section CustomWrapperInline.
Variable o : RangeOracle.
Variable jo : Options.
Variable mA : Options → json → res json.

(** What [MarshalJSONV2] writes for an inline object whose names are
    distinct and differ from the tag key. *)
Lemma MarshalJSONV2_inline_output (w : customKeyWrappedType) (ms : list (string * json)) :
  discriminatorKey w ≠ "" →
  inlineValue w = Some (JObj ms) →
  nestedValue w = None →
  NoDup (names ms) →
  discriminatorKey w ∉ names ms →
  ∃ out,
    written (MarshalJSONV2 o w jo Idle)
    = Ok (JObj ((discriminatorKey w, JStr (discriminatorValue w)) :: out))
    ∧ out ≡ₚ ms.
Proof.
  intros Hdk Hinl Hn Hnd Hfresh.
  set (m := list_to_map ms : gmap string json).
  assert (map_to_list m ≡ₚ ms) as Hm by (by apply map_to_list_to_map).
  assert (∀ kvs : list (string * json),
            kvs ≡ₚ ms →
            written
              ((run writeInlineMembers ((λ kv : string * json, (kv.1, Some kv.2)) <$> kvs);
                orWrap (WriteToken ObjectEnd) (ErrWriteToken "object end token"))
                 (InObject [(discriminatorKey w, JStr (discriminatorValue w))] None))
            = Ok (JObj ((discriminatorKey w, JStr (discriminatorValue w)) :: kvs))) as Hwrite.
  { intros kvs Hp. unfold bind.
    rewrite (writeInlineMembers_fresh kvs [(discriminatorKey w, JStr (discriminatorValue w))]);
      [reflexivity|].
    cbn. apply NoDup_cons. unfold names in *. by rewrite Hp. }
  unfold MarshalJSONV2. rewrite decide_False by done.
  rewrite MarshalJSONV2_start, Hinl, Hn. cbn [nonEmpty andb default].
  change (id (JObj ms)) with (JObj ms).
  rewrite decodeMap_object by done. fold m. rewrite bind_orWrap_lift_Ok.
  assert (rangeOf o m ≡ₚ ms) as Hperm by (by rewrite (rangeOf_perm o)).
  destruct (GetDeterministic jo) as [[|] [|]].
  - exists (membersInOrder m (sortStrings (rangeOf o m).*1)).
    assert (sortStrings (rangeOf o m).*1 ≡ₚ (map_to_list m).*1) as Hkeys.
    { rewrite sortStrings_perm. by rewrite (rangeOf_perm o). }
    assert (membersInOrder m (sortStrings (rangeOf o m).*1) ≡ₚ ms) as Hperm'.
    { rewrite <- Hm. by apply membersInOrder_perm. }
    split; [|exact Hperm'].
    rewrite lookups_membersInOrder; [by apply Hwrite|].
    intros k Hk. rewrite Hkeys in Hk.
    apply list_elem_of_fmap in Hk as [[k' v'] [-> Hin]].
    apply elem_of_map_to_list in Hin. by exists v'.
  - exists (rangeOf o m). split; [by apply Hwrite | exact Hperm].
  - exists (rangeOf o m). split; [by apply Hwrite | exact Hperm].
  - exists (rangeOf o m). split; [by apply Hwrite | exact Hperm].
Qed.


(** X11.  With [InlineObjects], a payload that is the empty object is
    written as the object of the tag member alone; reading that object back
    gives the empty wrapper again, whose [Type] is the empty string: the
    tag is lost. *)
Theorem custom_inline_empty_object_loses_tag (b : CustomValueWrapper) (typ : string) :
  InlineObjects b = true →
  written (MarshalJSONV2 o (Wrap b typ (Some (JObj []))) jo Idle)
  = Ok (JObj [(discriminatorKey (Wrap b "" None), JStr typ)])
  ∧ UnmarshalJSONV2 mA (Wrap b "" None)
      (JObj [(discriminatorKey (Wrap b "" None), JStr typ)]) jo
    = Ok (Wrap b "" None)
  ∧ customKeyWrappedType_Type (Wrap b "" None) = "".
Proof.
  intros Hinl. split; [|split].
  - unfold Wrap at 1. rewrite Hinl. cbn [ValueKind kindOf].
    rewrite bool_decide_eq_true_2 by done. cbn [andb].
    match goal with
    | |- context [MarshalJSONV2 o ?w0 jo Idle] =>
        destruct (MarshalJSONV2_inline_output w0 []) as (out & Hout & Hperm);
          try done; try apply NoDup_nil_2; try (by intros ?%elem_of_nil)
    end.
    + cbn [discriminatorKey]. unfold keyOr.
      by destruct (decide (DiscriminatorKey b = "")).
    + apply Permutation_nil_r in Hperm. subst out. rewrite Hout.
      unfold Wrap. by destruct (_ && _).
  - apply UnmarshalJSONV2_tag_only.
  - unfold Wrap. by destruct (_ && _).
Qed.

End CustomWrapperInline.

Section DecodeFailures.
Context {data : Type} (host : Host data).
Variable opts : gmap string (T data).
Variable cfg : option (Config data).

Lemma decodeWrapped_nested_any d p :
  decodeWrapped host (nestedWire d p) (WrapNested "" None)
  = Ok (Some (AlwaysNest {| anTyp := d;
                            anNestedValue := if isEmptyJSON p then None else Some p |})).
Proof. unfold nestedWire. by destruct (isEmptyJSON p). Qed.

(** No member is named ["_type"]: [Typ] keeps the value it had. *)
Lemma fillInlineObjects_no_tag (ms : list (string * json)) :
  ∀ seen w,
    NoDup (names ms) →
    (∀ k, k ∈ names ms → k ∉ seen) →
    "_type" ∉ names ms →
    ∃ nv iv, fillInlineObjects seen ms w
             = Ok {| ioTyp := ioTyp w; ioNestedValue := nv; ioInlineValue := iv |}.
Proof.
  induction ms as [|[k v] rest IH]; intros seen w Hnd Hfresh Htag.
  - exists (ioNestedValue w), (ioInlineValue w). by destruct w.
  - apply NoDup_cons in Hnd as [Hk Hnd].
    apply not_elem_of_cons in Htag as [Hne Htag].
    assert (∀ k', k' ∈ names rest → k' ∉ k :: seen) as Hfresh'.
    { intros k' Hin [->|Hs]%elem_of_cons; [done|].
      by apply (Hfresh k' ltac:(by right)). }
    cbn [fillInlineObjects].
    rewrite decide_False by (apply Hfresh; left).
    rewrite decide_False by done.
    destruct (decide (k = "_value")).
    + destruct (IH (k :: seen)
                  {| ioTyp := ioTyp w; ioNestedValue := Some v;
                     ioInlineValue := ioInlineValue w |} Hnd Hfresh' Htag)
        as (nv & iv & Hfill).
      exists nv, iv. by rewrite Hfill.
    + destruct (IH (k :: seen)
                  {| ioTyp := ioTyp w; ioNestedValue := ioNestedValue w;
                     ioInlineValue := appendInline (ioInlineValue w) k v |} Hnd Hfresh' Htag)
        as (nv & iv & Hfill).
      exists nv, iv. by rewrite Hfill.
Qed.

(** The member named ["_type"] holds the string [d]: [Typ] becomes [d],
    wherever the member stands. *)
Lemma fillAlwaysNest_tag d (ms : list (string * json)) :
  ∀ seen w,
    NoDup (names ms) →
    (∀ k, k ∈ names ms → k ∉ seen) →
    ("_type", JStr d) ∈ ms →
    ∃ nv, fillAlwaysNest seen ms w = Ok {| anTyp := d; anNestedValue := nv |}.
Proof.
  induction ms as [|[k v] rest IH]; intros seen w Hnd Hfresh Hin.
  - by apply elem_of_nil in Hin.
  - apply NoDup_cons in Hnd as [Hk Hnd].
    assert (∀ k', k' ∈ names rest → k' ∉ k :: seen) as Hfresh'.
    { intros k' Hin' [->|Hs]%elem_of_cons; [done|].
      by apply (Hfresh k' ltac:(by right)). }
    cbn [fillAlwaysNest].
    rewrite decide_False by (apply Hfresh; left).
    apply elem_of_cons in Hin as [Heq|Hin].
    + injection Heq as <- <-. rewrite decide_True by done. cbn [decodeString].
      destruct (fillAlwaysNest_no_tag rest ("_type" :: seen)
                  {| anTyp := d; anNestedValue := anNestedValue w |} Hnd Hfresh' Hk)
        as [nv Hnv].
      exists nv. exact Hnv.
    + assert (k ≠ "_type") as Hne.
      { intros ->. apply Hk. apply list_elem_of_fmap. by exists ("_type", JStr d). }
      rewrite decide_False by done.
      destruct (decide (k = "_value")); by apply IH.
Qed.

Lemma fillInlineObjects_tag_member d (ms : list (string * json)) :
  ∀ seen w,
    NoDup (names ms) →
    (∀ k, k ∈ names ms → k ∉ seen) →
    ("_type", JStr d) ∈ ms →
    ∃ nv iv, fillInlineObjects seen ms w
             = Ok {| ioTyp := d; ioNestedValue := nv; ioInlineValue := iv |}.
Proof.
  induction ms as [|[k v] rest IH]; intros seen w Hnd Hfresh Hin.
  - by apply elem_of_nil in Hin.
  - apply NoDup_cons in Hnd as [Hk Hnd].
    assert (∀ k', k' ∈ names rest → k' ∉ k :: seen) as Hfresh'.
    { intros k' Hin' [->|Hs]%elem_of_cons; [done|].
      by apply (Hfresh k' ltac:(by right)). }
    cbn [fillInlineObjects].
    rewrite decide_False by (apply Hfresh; left).
    apply elem_of_cons in Hin as [Heq|Hin].
    + injection Heq as <- <-. rewrite decide_True by done. cbn [decodeString].
      destruct (fillInlineObjects_no_tag rest ("_type" :: seen)
                  {| ioTyp := d; ioNestedValue := ioNestedValue w;
                     ioInlineValue := ioInlineValue w |} Hnd Hfresh' Hk)
        as (nv & iv & Hfill).
      exists nv, iv. exact Hfill.
    + assert (k ≠ "_type") as Hne.
      { intros ->. apply Hk. apply list_elem_of_fmap. by exists ("_type", JStr d). }
      rewrite decide_False by done.
      destruct (decide (k = "_value")); by apply IH.
Qed.

(** X12.  A tag that is not a key of the registry: under [WrapNested] and
    under [WrapInline], for every object of distinct names whose ["_type"]
    member holds that tag, whatever its other members (a nested payload,
    inlined members, or none), the unmarshal hook fails with
    [ErrUnknownDiscriminatorValue] for the tag; it issues no nested request
    and leaves the guard and the heap as they were. *)
Theorem unknown_tag_is_refused
    (d : string) (ms : list (string * json))
    (U : json → T data → M data (T data)) (ptr : T data)
    (n : nat) (mg : bool) (h : gmap loc data) :
  opts !! d = None →
  NoDup (names ms) →
  ("_type", JStr d) ∈ ms →
  wrapFunc cfg = WrapNested ∨ wrapFunc cfg = WrapInline →
  unmarshalFunc host opts cfg U (JObj ms) ptr (Build_World mg false h)
  = (Err (ErrUnknownDiscriminatorValue d), Build_World mg false h)
  ∧ Unmarshal host opts cfg (S n) (JObj ms) ptr (Build_World mg false h)
    = (Err (ErrUnknownDiscriminatorValue d), Build_World mg false h).
Proof.
  intros Hd Hnd Hin Hwrap.
  assert (∀ U', unmarshalFunc host opts cfg U' (JObj ms) ptr (Build_World mg false h)
                = (Err (ErrUnknownDiscriminatorValue d), Build_World mg false h)) as Hhook.
  { intros U'. destruct Hwrap as [Hw|Hw].
    - destruct (fillAlwaysNest_tag d ms [] {| anTyp := ""; anNestedValue := None |})
        as [nv Hnv]; [done | by intros ? ? ?%elem_of_nil | done |].
      rewrite (unmarshalFunc_unknown host opts cfg U' _ ptr
                 (AlwaysNest {| anTyp := d; anNestedValue := nv |})); [done | | done].
      rewrite Hw. unfold WrapNested. cbn [decodeWrapped]. by rewrite Hnv.
    - destruct (fillInlineObjects_tag_member d ms []
                  {| ioTyp := ""; ioNestedValue := None; ioInlineValue := None |})
        as (nv & iv & Hfill); [done | by intros ? ? ?%elem_of_nil | done |].
      rewrite (unmarshalFunc_unknown host opts cfg U' _ ptr
                 (InlineObjectsW {| ioTyp := d; ioNestedValue := nv; ioInlineValue := iv |}));
        [done | | done].
      rewrite Hw.
      change (WrapInline "" None)
        with (InlineObjectsW {| ioTyp := ""; ioNestedValue := None; ioInlineValue := None |}).
      cbn [decodeWrapped]. by rewrite Hfill. }
  split; [apply Hhook|].
  rewrite Unmarshal_unfold. unfold bind. by rewrite Hhook.
Qed.


End DecodeFailures.

Section CustomWrapperHook.
Context {data : Type} (host : Host data).
Variable opts : gmap string (T data).

(** X14.  Under a [CustomValueWrapper], an object that has the tag member
    and nothing else cannot be decoded, whatever tag it carries, unless the
    empty string is a key of the registry: the hook looks up the empty
    tag. *)
Theorem custom_tag_only_object_is_refused
    (b : CustomValueWrapper) (d : string)
    (U : json → T data → M data (T data)) (ptr : T data) (mg : bool) (h : gmap loc data) :
  opts !! "" = None →
  unmarshalFunc host opts (customConfig b) U
    (JObj [(discriminatorKey (Wrap b "" None), JStr d)]) ptr (Build_World mg false h)
  = (Err (ErrUnknownDiscriminatorValue ""), Build_World mg false h).
Proof.
  intros Hempty.
  rewrite (unmarshalFunc_unknown host opts (customConfig b) U _ ptr
             (CustomKey (Wrap b "" None))).
  - by destruct (bool_decide (ValueKind None = KObject) && InlineObjects b).
  - change (wrapFunc (customConfig (data:=data) b) "" None)
      with (CustomKey (Wrap b "" None)).
    cbn [decodeWrapped]. by rewrite UnmarshalJSONV2_tag_only.
  - unfold Wrap. by destruct (_ && _).
Qed.

End CustomWrapperHook.

Section CustomWrapperRoundTrip.
Context {data : Type} (host : Host data).
Variable opts : gmap string (T data).
Variable b : CustomValueWrapper.






End CustomWrapperRoundTrip.

Section Fallback.
Context {data : Type} (host : Host data).
Variable opts : gmap string (T data).
Variable cfg : option (Config data).

(** X17.  What [ReplaceMissingTypeFunc] makes possible to write cannot be
    read back: when the replacement tag of a value of an unregistered type
    (what the function returns for the pointer to the value that the hook
    receives) is not a key of the registry, marshaling under [WrapNested]
    succeeds, and unmarshaling its output with the same options fails with
    [ErrUnknownDiscriminatorValue] for the replacement tag. *)
Theorem fallback_output_is_not_decodable
    (n m : nat) (t : T data) (ty : rtype) (f : T data → string) (p : json)
    (w1 : World data) (ug mg : bool) (h h2 : gmap loc data) (ptr : T data) :
  (∀ v, t ≠ Raw v) →
  strippedType host t = Ok ty →
  noOptionOfType host opts ty →
  replaceMissingTypeFunc cfg = Some f →
  wrapFunc cfg = WrapNested →
  opts !! f (castTo t) = None →
  encodeDefault host (Marshal host opts cfg (S n)) t (Build_World false ug h) = (Ok p, w1) →
  Marshal host opts cfg (S (S (S n))) t (Build_World false ug h)
  = (Ok (nestedWire (f (castTo t)) p), afterRawField host w1)
  ∧ Unmarshal host opts cfg (S m) (nestedWire (f (castTo t)) p) ptr (Build_World mg false h2)
    = (Err (ErrUnknownDiscriminatorValue (f (castTo t))), Build_World mg false h2).
Proof.
  intros Hraw Hty Hno Hf Hwrap Hkey Henc.
  pose proof (strippedType_applies host t ty Hraw Hty) as Happ.
  assert (resolveDiscriminator host opts cfg (castTo t) = Ok (f (castTo t))) as Hres.
  { unfold resolveDiscriminator. rewrite discriminatorValueFor_castTo.
    by rewrite (discriminatorValueFor_none host opts t ty Hty Hno), Hf. }
  split.
  - rewrite (Marshal_intercepted host opts cfg n t (f (castTo t)) p w1 ug h) by done.
    rewrite Hwrap. apply encodeWrapped_nested_wire.
  - rewrite Unmarshal_unfold. unfold bind.
    rewrite (unmarshalFunc_unknown host opts cfg _ _ ptr
               (AlwaysNest {| anTyp := f (castTo t);
                              anNestedValue := if isEmptyJSON p then None else Some p |}));
      [done | | done].
    rewrite Hwrap. apply decodeWrapped_nested_any.
Qed.

(** X18.  [WrapInline] hands the host an inline value only when it is an
    object: encoding its wrapper never fails for an inline value of another
    kind, and a payload that is not an object is encoded exactly as under
    [WrapNested]. *)
Theorem wrap_inline_nests_what_is_not_an_object
    (n : nat) (typ : string) (v : Value) (w : World data) :
  (encodeWrapped host (Marshal host opts cfg (S n)) (WrapInline typ v) w).1
  ≠ Err HostInvalidInline
  ∧ (ValueKind v ≠ KObject →
     encodeWrapped host (Marshal host opts cfg (S n)) (WrapInline typ v) w
     = encodeWrapped host (Marshal host opts cfg (S n)) (WrapNested typ v) w).
Proof.
  split.
  - unfold WrapInline.
    destruct (decide (ValueKind v = KObject)) as [Hk|Hk].
    + rewrite bool_decide_eq_true_2 by done.
      destruct v as [[| [] | ? | ? | ? | ms]|]; try done.
      cbn [encodeWrapped ioTyp ioNestedValue ioInlineValue]. unfold bind.
      rewrite taggedMembers_eval. cbn [ret].
      by destruct (decide _).
    + rewrite bool_decide_eq_false_2 by done.
      cbn [encodeWrapped ioTyp ioNestedValue ioInlineValue]. unfold bind.
      by rewrite taggedMembers_eval.
  - intros Hk. unfold WrapInline, WrapNested.
    rewrite bool_decide_eq_false_2 by done.
    cbn [encodeWrapped ioTyp ioNestedValue ioInlineValue anTyp anNestedValue]. unfold bind.
    by rewrite !taggedMembers_eval.
Qed.

End Fallback.

(** X19.  The message of either error of error.go determines the error: it
    tells the two kinds apart and gives back the type or the tag that the
    error carries. *)
Theorem error_message_determines_error (a b : string) :
  (ErrUnknownGoType_Error a = ErrUnknownGoType_Error b → a = b)
  ∧ (ErrUnknownDiscriminatorValue_Error a = ErrUnknownDiscriminatorValue_Error b → a = b)
  ∧ ErrUnknownGoType_Error a ≠ ErrUnknownDiscriminatorValue_Error b.
Proof.
  unfold ErrUnknownGoType_Error, ErrUnknownDiscriminatorValue_Error.
  split; [|split]; intros Heq; by simplify_eq.
Qed.

(** * The further properties at concrete inputs *)

(** X1 at [ExclamationPointsStringer(2)] and the registry of [Example]. *)
Lemma found_is_registered_witness :
  "exclamation" ≠ ""
  ∧ ∃ ot ty, stringerOptions !! "exclamation" = Some ot
             ∧ strippedType testHost ot = Ok ty
             ∧ strippedType testHost (Plain (ExclamationPointsStringer 2)) = Ok ty.
Proof.
  apply (discriminatorValueFor_found_is_registered testHost stringerOptions
           (Plain (ExclamationPointsStringer 2)) "exclamation").
  vm_compute. reflexivity.
Defined.

(** X2 at a [LiteralStringer] and the registry that leaves its type out. *)
Lemma not_found_is_complete_witness :
  "" = ""
  ∧ ∃ ty, strippedType testHost (Plain (LiteralStringer "Hello")) = Ok ty
          ∧ noOptionOfType testHost stringerOptionsWithoutLiteral ty.
Proof.
  apply (discriminatorValueFor_not_found_is_complete testHost stringerOptionsWithoutLiteral
           (Plain (LiteralStringer "Hello")) "");
    vm_compute; reflexivity.
Defined.

Lemma empty_tag_only_option :
  onlyOptionOfType testHost emptyTagOptions "" (Named "oneof_test.LiteralStringer").
Proof.
  split.
  - eexists. split; vm_compute; reflexivity.
  - intros k ot H Hne. registry_cases H; done.
Defined.

(** X3 at a [LiteralStringer] registered under the empty tag. *)
Lemma empty_key_is_not_found_witness :
  discriminatorValueFor testHost (Plain (LiteralStringer "x")) emptyTagOptions
  = Ok ("", false).
Proof.
  apply (discriminatorValueFor_empty_key_is_not_found testHost emptyTagOptions
           (Plain (LiteralStringer "x")) (Named "oneof_test.LiteralStringer")).
  - vm_compute. reflexivity.
  - exact empty_tag_only_option.
Defined.

Lemma stringer_options_distinct : distinctTypes testHost stringerOptions.
Proof.
  split.
  - intros k ot H. registry_cases H; eexists; vm_compute; reflexivity.
  - intros k1 k2 o1 o2 ty H1 H2 Hs1 Hs2.
    registry_cases H1; registry_cases H2; try done;
      vm_compute in Hs1, Hs2; congruence.
Defined.

(** X4 at the registry of [Example], iterated forwards and backwards. *)
Lemma order_independent_witness :
  discriminatorValueFor (withOracle testHost insertionOrder)
    (Plain (JoinStringer Nil Nil "-")) stringerOptions
  = discriminatorValueFor (withOracle testHost reverseOrder)
      (Plain (JoinStringer Nil Nil "-")) stringerOptions.
Proof.
  apply (discriminatorValueFor_order_independent testHost stringerOptions
           insertionOrder reverseOrder (Plain (JoinStringer Nil Nil "-"))).
  exact stringer_options_distinct.
Defined.

(** X5 at a pointer to a [url.URL], with [&url.URL{}] registered. *)
Lemma pointer_is_marshaled_as_its_value_witness :
  Marshal testHost urlOptions None 4 (Ref "url.URL" 0) urlWorld
  = Marshal testHost urlOptions None 4 (Plain (URL "" "")) urlWorld.
Proof.
  apply (pointer_is_marshaled_as_its_value testHost urlOptions None (URL "" "") 0 "url.URL");
    vm_compute; reflexivity.
Defined.

(** X8 at a wrapper built by hand with both payload fields set. *)
Lemma both_payloads_refused_witness :
  MarshalJSONV2 insertionOrder
    {| discriminatorKey := "$type"; discriminatorValue := "point";
       nestedValueKey := "$value"; nestedValue := Some (JNum "1");
       inlineValue := Some (JObj [("x", JNum "2")]) |}
    {| Deterministic := None |} Idle
  = (Err ErrBothInlineAndNested, InObject [("$type", JStr "point")] None).
Proof.
  apply (both_payloads_refused_after_tag_is_written
           {| discriminatorKey := "$type"; discriminatorValue := "point";
              nestedValueKey := "$value"; nestedValue := Some (JNum "1");
              inlineValue := Some (JObj [("x", JNum "2")]) |}
           insertionOrder {| Deterministic := None |});
    [discriminate | reflexivity | reflexivity].
Defined.

(** X9 at the wrapper of [ExampleCustomValueWrapper] around a null payload. *)
Lemma custom_nested_output_witness :
  written (MarshalJSONV2 insertionOrder (Wrap dollarWrapper "literal" (Some JNull))
             {| Deterministic := None |} Idle)
  = Ok (JObj [("$type", JStr "literal"); ("$value", JNull)]).
Proof.
  apply (custom_nested_output insertionOrder {| Deterministic := None |}
           (Wrap dollarWrapper "literal" (Some JNull)));
    [discriminate | discriminate | reflexivity].
Defined.

(** X10 at a [CustomValueWrapper] that names both keys ["k"]. *)
Lemma custom_equal_keys_refused_witness :
  MarshalJSONV2 insertionOrder
    (Wrap {| DiscriminatorKey := "k"; NestedValueKey := "k"; InlineObjects := false |}
          "literal" (Some (JStr "Hello")))
    {| Deterministic := None |} Idle
  = (Err (ErrWriteToken "nested value key token" HostDuplicateName),
     InObject [("k", JStr "literal")] None).
Proof.
  apply (custom_equal_keys_refused insertionOrder {| Deterministic := None |}
           (Wrap {| DiscriminatorKey := "k"; NestedValueKey := "k"; InlineObjects := false |}
                 "literal" (Some (JStr "Hello")))
           (JStr "Hello"));
    [discriminate | reflexivity | reflexivity | reflexivity].
Defined.

(** X11 at the wrapper of [ExampleCustomValueWrapper]. *)
Lemma custom_inline_empty_object_witness :
  written (MarshalJSONV2 insertionOrder (Wrap dollarWrapper "join" (Some (JObj [])))
             {| Deterministic := Some true |} Idle)
  = Ok (JObj [("$type", JStr "join")])
  ∧ UnmarshalJSONV2 (λ _ j, Ok j) (Wrap dollarWrapper "" None)
      (JObj [("$type", JStr "join")]) {| Deterministic := Some true |}
    = Ok (Wrap dollarWrapper "" None)
  ∧ customKeyWrappedType_Type (Wrap dollarWrapper "" None) = "".
Proof.
  apply (custom_inline_empty_object_loses_tag insertionOrder {| Deterministic := Some true |}
           (λ _ j, Ok j) dollarWrapper "join").
  reflexivity.
Defined.

(** X12 at a tag that the registry of [Example] does not have, in nested
    form under [WrapNested] and with inlined members under [WrapInline]. *)
Lemma unknown_tag_witness :
  (unmarshalFunc testHost stringerOptions None (Unmarshal testHost stringerOptions None 3)
     (JObj [("_type", JStr "teapot"); ("_value", JNum "1")]) Nil world0
   = (Err (ErrUnknownDiscriminatorValue "teapot"), world0)
   ∧ Unmarshal testHost stringerOptions None 1
       (JObj [("_type", JStr "teapot"); ("_value", JNum "1")]) Nil world0
     = (Err (ErrUnknownDiscriminatorValue "teapot"), world0))
  ∧ (unmarshalFunc testHost stringerOptions inlineConfig
       (Unmarshal testHost stringerOptions inlineConfig 3)
       (JObj [("show_code", JBool true); ("_type", JStr "teapot")]) Nil world0
     = (Err (ErrUnknownDiscriminatorValue "teapot"), world0)
     ∧ Unmarshal testHost stringerOptions inlineConfig 1
         (JObj [("show_code", JBool true); ("_type", JStr "teapot")]) Nil world0
       = (Err (ErrUnknownDiscriminatorValue "teapot"), world0)).
Proof.
  split.
  - apply (unknown_tag_is_refused testHost stringerOptions None "teapot"
             [("_type", JStr "teapot"); ("_value", JNum "1")]
             (Unmarshal testHost stringerOptions None 3) Nil 0 false ∅).
    + vm_compute. reflexivity.
    + apply (bool_decide_unpack _); vm_compute; exact I.
    + apply list_elem_of_here.
    + left. reflexivity.
  - apply (unknown_tag_is_refused testHost stringerOptions inlineConfig "teapot"
             [("show_code", JBool true); ("_type", JStr "teapot")]
             (Unmarshal testHost stringerOptions inlineConfig 3) Nil 0 false ∅).
    + vm_compute. reflexivity.
    + apply (bool_decide_unpack _); vm_compute; exact I.
    + apply list_elem_of_further, list_elem_of_here.
    + right. reflexivity.
Defined.


(** X14 at the registry of [Example] and the tag of a registered type. *)
Lemma custom_tag_only_object_is_refused_witness :
  unmarshalFunc testHost stringerOptions (customConfig dollarWrapper)
    (Unmarshal testHost stringerOptions (customConfig dollarWrapper) 3)
    (JObj [("$type", JStr "join")]) Nil world0
  = (Err (ErrUnknownDiscriminatorValue ""), world0).
Proof.
  apply (custom_tag_only_object_is_refused testHost stringerOptions dollarWrapper "join"
           (Unmarshal testHost stringerOptions (customConfig dollarWrapper) 3)
           Nil false ∅).
  vm_compute. reflexivity.
Defined.



(** X17 at [LiteralStringer("Hello")] with the registry and the replacement
    of [ExampleConfig_replaceMissingTypeFunc]. *)
Lemma fallback_output_witness :
  Marshal testHost stringerOptionsWithoutLiteral missingConfig 4
    (Plain (LiteralStringer "Hello")) world0
  = (Ok (nestedWire "MISSING_*oneof_test.LiteralStringer" (JStr "Hello")),
     afterRawField testHost world0)
  ∧ Unmarshal testHost stringerOptionsWithoutLiteral missingConfig 1
      (nestedWire "MISSING_*oneof_test.LiteralStringer" (JStr "Hello")) Nil world0
    = (Err (ErrUnknownDiscriminatorValue "MISSING_*oneof_test.LiteralStringer"), world0).
Proof.
  apply (fallback_output_is_not_decodable testHost stringerOptionsWithoutLiteral missingConfig
           1 0 (Plain (LiteralStringer "Hello")) (Named "oneof_test.LiteralStringer")
           (λ v, "MISSING_" ++ fmtT testHost v) (JStr "Hello")
           world0 false false ∅ ∅ Nil);
    try apply plain_not_raw; try exact no_literal_option; vm_compute; reflexivity.
Defined.

(** X18 at a number payload. *)
Lemma wrap_inline_nests_witness :
  encodeWrapped testHost (Marshal testHost stringerOptions None 2)
    (WrapInline "exclamation" (Some (JNum "2"))) world0
  = encodeWrapped testHost (Marshal testHost stringerOptions None 2)
      (WrapNested "exclamation" (Some (JNum "2"))) world0.
Proof.
  apply (proj2 (wrap_inline_nests_what_is_not_an_object testHost stringerOptions None
                  1 "exclamation" (Some (JNum "2")) world0)).
  discriminate.
Defined.
